(** * openrag: the incremental indexing pipeline

    A shallow embedding of the indexing pipeline of openrag:
    - [openrag/indexer/processor.py]   (class [CodeProcessor]),
    - [openrag/chroma/manager.py]      (class [ChromaCollectionManager]),
    - [openrag/indexer/watcher.py]     (classes [CodeIndexerHandler], [FileWatcher]),
    - [openrag/embeddings/ollama_embedding.py] (class [OllamaEmbeddingFunction]).

    Conventions.
    - Python [int] is [Z]; [len], slice bounds and [rfind] results are [Z], with
      Python's treatment of negative and out-of-range bounds written out.
    - Python [str] is [string]; one [ascii] stands for one character (a code
      point below 256).
    - A [pathlib.Path] below the project root is the list of its components
      relative to the root.
    - Python sets are [gset], the document collection is a [gmap] keyed by id.
    - Methods that touch the collection or the handler's counters are written in
      a state-and-exception monad; [try ... except Exception] is [try_except].
    - Logging calls are left out: they have no effect on any value below. *)

From Stdlib Require Import ZArith Ascii String List Lia Bool.
From Stdlib Require Import DecimalString DecimalNat.
From stdpp Require Import gmap strings list fin_maps.

Open Scope string_scope.
Open Scope Z_scope.

(** ** Python string primitives *)

Module Py.

Definition len (s : string) : Z := Z.of_nat (String.length s).

(** Bound adjustment shared by [s[i:j]] and [s.rfind(c, i, j)]. *)
Definition clamp_index (n i : Z) : Z :=
  if i <? 0 then Z.max (i + n) 0 else Z.min i n.

Fixpoint take (n : nat) (s : string) : string :=
  match n, s with
  | O, _ => ""
  | S _, "" => ""
  | S k, String c r => String c (take k r)
  end.

Fixpoint drop (n : nat) (s : string) : string :=
  match n, s with
  | O, _ => s
  | S _, "" => ""
  | S k, String _ r => drop k r
  end.

(** [s[i:j]] *)
Definition slice (s : string) (i j : Z) : string :=
  let n := len s in
  let lo := clamp_index n i in
  let hi := clamp_index n j in
  take (Z.to_nat (hi - lo)) (drop (Z.to_nat lo) s).

(** [s[:j]] *)
Definition slice_to (s : string) (j : Z) : string := slice s 0 j.

(** [s[i:]] *)
Definition slice_from (s : string) (i : Z) : string := slice s i (len s).

(** One left-to-right pass of [rfind]: [found] is the last match so far. *)
Fixpoint rfind_scan (c : ascii) (s : string) (pos lo hi found : Z) : Z :=
  match s with
  | "" => found
  | String x r =>
      rfind_scan c r (pos + 1) lo hi
        (if Ascii.eqb x c && (lo <=? pos) && (pos <? hi) then pos else found)
  end.

(** [s.rfind(c, i, j)] for a one-character [c]; [-1] when absent. *)
Definition rfind (s : string) (c : ascii) (i j : Z) : Z :=
  let n := len s in
  rfind_scan c s 0 (clamp_index n i) (clamp_index n j) (-1).

(** [s.rfind(c)] *)
Definition rfind_all (s : string) (c : ascii) : Z := rfind s c 0 (len s).

(** [str.isspace] on one character below 256. *)
Definition is_space (c : ascii) : bool :=
  let n := N.to_nat (N_of_ascii c) in
  ((9 <=? n) && (n <=? 13) || (28 <=? n) && (n <=? 32)
   || (n =? 133) || (n =? 160))%nat.

Fixpoint lstrip (s : string) : string :=
  match s with
  | "" => ""
  | String c r => if is_space c then lstrip r else s
  end.

Fixpoint rstrip (s : string) : string :=
  match s with
  | "" => ""
  | String c r =>
      match rstrip r with
      | "" => if is_space c then "" else String c ""
      | r' => String c r'
      end
  end.

(** [s.strip()] *)
Definition strip (s : string) : string := lstrip (rstrip s).

Definition lower_char (c : ascii) : ascii :=
  let n := N_of_ascii c in
  if ((65 <=? n) && (n <=? 90)
      || (192 <=? n) && (n <=? 222) && negb (n =? 215))%N
  then ascii_of_N (n + 32) else c.

(** [s.lower()] *)
Fixpoint lower (s : string) : string :=
  match s with
  | "" => ""
  | String c r => String (lower_char c) (lower r)
  end.

(** [s.startswith(p)] *)
Fixpoint startswith (s p : string) : bool :=
  match p, s with
  | "", _ => true
  | String _ _, "" => false
  | String a p', String b s' => Ascii.eqb a b && startswith s' p'
  end.

(** [sub in s] *)
Fixpoint contains (s sub : string) : bool :=
  startswith s sub
  || match s with
     | "" => false
     | String _ r => contains r sub
     end.

(** [sep.join(parts)] *)
Fixpoint join (sep : string) (parts : list string) : string :=
  match parts with
  | [] => ""
  | [p] => p
  | p :: rest => p +:+ sep +:+ join sep rest
  end.

(** [str(n)] for a non-negative [int]. *)
Definition str_of_nat (n : nat) : string :=
  NilEmpty.string_of_uint (Nat.to_uint n).

Definition newline : ascii := ascii_of_nat 10.

End Py.

(** ** Paths and the file system *)

Module Fs.

(** A path below the project root: its components relative to the root. *)
Definition Path := list string.

(** [str(path.relative_to(project_root))] *)
Definition rel_str (p : Path) : string :=
  match p with
  | [] => "."
  | _ => Py.join "/" p
  end.

(** [path.name] *)
Definition name (p : Path) : string := List.last p "".

(** [path.parent] *)
Definition parent (p : Path) : Path := removelast p.

(** [path.suffix]: the part of the name from its last dot on, when that dot is
    neither the first nor the last character of the name. *)
Definition suffix (p : Path) : string :=
  let nm := name p in
  let i := Py.rfind_all nm "." in
  if (0 <? i) && (i <? Py.len nm - 1) then Py.slice_from nm i else "".

(** What [open(path, 'r', encoding='utf-8').read()] does. *)
Inductive ReadResult :=
| ReadOk (content : string)
| UnicodeDecodeError
| OSError.

#[warnings="-register-all"]
Inductive Node :=
| FileNode (name : string) (data : ReadResult)
| DirNode (name : string) (children : list Node).

Definition node_name (n : Node) : string :=
  match n with
  | FileNode nm _ => nm
  | DirNode nm _ => nm
  end.

(** The entries of the project root. *)
Definition Tree := list Node.

Definition find_entry (nm : string) (entries : list Node) : option Node :=
  List.find (fun n => String.eqb (node_name n) nm) entries.

Fixpoint lookup (entries : list Node) (p : Path) : option Node :=
  match p with
  | [] => None
  | [c] => find_entry c entries
  | c :: rest =>
      match find_entry c entries with
      | Some (DirNode _ children) => lookup children rest
      | _ => None
      end
  end.

(** [path.is_file()] *)
Definition is_file (t : Tree) (p : Path) : bool :=
  match lookup t p with
  | Some (FileNode _ _) => true
  | _ => false
  end.

(** Opening and reading a path as UTF-8 text; a directory or a missing path
    raises an [OSError]. *)
Definition read_text (t : Tree) (p : Path) : ReadResult :=
  match lookup t p with
  | Some (FileNode _ data) => data
  | _ => OSError
  end.

Definition file_names (entries : list Node) : list string :=
  flat_map (fun n => match n with FileNode nm _ => [nm] | DirNode _ _ => [] end)
           entries.

(** [os.walk(project_root)] with the caller's in-place pruning
    [dirs[:] = [d for d in dirs if d not in exclude_dirs]]: top-down, one
    [(root, files)] pair per directory visited. *)
Fixpoint walk_node (exclude_dirs : gset string) (root : Path) (n : Node)
  : list (Path * list string) :=
  match n with
  | FileNode _ _ => []
  | DirNode nm children =>
      if bool_decide (nm ∈ exclude_dirs) then []
      else
        let here := (root ++ [nm])%list in
        (here, file_names children)
          :: flat_map (walk_node exclude_dirs here) children
  end.

Definition walk (exclude_dirs : gset string) (t : Tree)
  : list (Path * list string) :=
  ([], file_names t) :: flat_map (walk_node exclude_dirs []) t.

End Fs.

(** ** [openrag/config.py] and [openrag/indexer/processor.py] *)

Module Processor.
Import Fs.

(** The fields of [OpenRAGConfig] the indexing pipeline reads. *)
Record Config := {
  project_root : string;
  file_extensions : gset string;
  exclude_dirs : gset string;
  exclude_files : gset string;
  chunk_size : Z;
  chunk_overlap : Z;
  batch_size : Z;
  ignore_hidden : bool
}.

(** One entry of [self.gitignore_rules]: the directory of the [.gitignore]
    file (as [str(Path(root))]) and the matcher [gitignore_parser] built for
    it; the matcher answers [None] when it raises. *)
Definition Matcher := string -> option bool.
Definition GitignoreRule := (string * Matcher)%type.

(** The receiver [self] of the [CodeProcessor] methods. *)
Record CodeProcessor := {
  config : Config;
  gitignore_rules : list GitignoreRule
}.

Record Metadata := {
  source : string;
  filename : string;
  extension : string;
  language : string;
  chunk_index : nat;
  total_chunks : nat;
  directory : string
}.

Record ChunkRecord := {
  document : string;
  metadata : Metadata;
  id : string
}.

(** [str(file_path)] for a path below the project root. *)
Definition abs_str (cfg : Config) (p : Path) : string :=
  project_root cfg +:+ "/" +:+ Py.join "/" p.

(** Which of the four [return True] statements of [should_ignore] fired. *)
Inductive IgnoreRule := ByExcludeDir | ByExcludeFile | ByHidden | ByGitignore.

Definition dir_excludes (rel_path exclude_dir : string) : bool :=
  Py.contains ("/" +:+ rel_path +:+ "/") ("/" +:+ exclude_dir +:+ "/")
  || Py.startswith rel_path (exclude_dir +:+ "/").

Definition gitignore_excludes (file_str : string) (rule : GitignoreRule) : bool :=
  Py.startswith file_str (fst rule)
  && match snd rule file_str with
     | Some b => b
     | None => false
     end.

Definition language_map : list (string * string) :=
  [ (".go", "go"); (".js", "javascript"); (".jsx", "react");
    (".ts", "typescript"); (".tsx", "react-typescript"); (".sql", "sql");
    (".py", "python"); (".rb", "ruby"); (".php", "php"); (".java", "java");
    (".rs", "rust"); (".cpp", "cpp"); (".c", "c"); (".h", "c");
    (".hpp", "cpp"); (".cs", "csharp"); (".swift", "swift");
    (".kt", "kotlin"); (".r", "r"); (".jl", "julia");
    (".yml", "yaml"); (".yaml", "yaml"); (".json", "json");
    (".toml", "toml"); (".md", "markdown"); (".html", "html");
    (".css", "css"); (".scss", "scss"); (".sh", "bash"); (".bash", "bash");
    (".env", "dotenv"); (".conf", "config"); (".txt", "text") ].

Definition detect_language (p : Path) : string :=
  let ext := Py.lower (suffix p) in
  match List.find (fun kv => String.eqb (fst kv) ext) language_map with
  | Some kv => snd kv
  | None => "text"
  end.

(** *** [chunk_content] *)

(** The local variables of the [while] loop. *)
Record LoopState := {
  start : Z;
  last_start : Z;
  iteration : Z;
  chunks : list string
}.

(** How the loop was left: its condition became false, one of the two
    [break]s, or the model stopped unrolling. *)
Inductive LoopExit := CondFalse | StallBreak | IterationBreak | OutOfFuel.

(** The end of the window that starts at [start], after newline snapping. *)
Definition window_end (cfg : Config) (content : string) (start : Z) : Z :=
  let e := Z.min (start + chunk_size cfg) (Py.len content) in
  if e <? Py.len content then
    let newline_pos := Py.rfind content Py.newline start e in
    if newline_pos >? start then newline_pos + 1 else e
  else e.

Definition next_start (cfg : Config) (start e : Z) : Z :=
  let new_start := e - chunk_overlap cfg in
  if new_start <=? start then e + 1 else new_start.

(** The loop body from [last_start = start] to [start = ...]. *)
Definition loop_body (cfg : Config) (content : string) (st : LoopState)
  : LoopState :=
  let e := window_end cfg content (start st) in
  let chunk := Py.strip (Py.slice content (start st) e) in
  {| start := next_start cfg (start st) e;
     last_start := start st;
     iteration := iteration st + 1;
     chunks := if Py.len chunk >? 50
               then (chunks st ++ [chunk])%list else chunks st |}.

Fixpoint chunk_loop (fuel : nat) (cfg : Config) (content : string)
  (st : LoopState) : LoopState * LoopExit :=
  match fuel with
  | O => (st, OutOfFuel)
  | S fuel' =>
      if negb (start st <? Py.len content) then (st, CondFalse)
      else if start st =? last_start st then (st, StallBreak)
      else
        let st' := loop_body cfg content st in
        if iteration st' >? Py.len content then (st', IterationBreak)
        else chunk_loop fuel' cfg content st'
  end.

Definition loop_init : LoopState :=
  {| start := 0; last_start := -1; iteration := 0; chunks := [] |}.

(** The loop is unrolled [len(content) + 1] times: the body raises
    [iteration] by one and breaks once it exceeds [len(content)], so the
    loop never runs longer (see [chunk_loop_fuel_enough]). *)
Definition run_loop (cfg : Config) (content : string) : LoopState * LoopExit :=
  chunk_loop (S (String.length content)) cfg content loop_init.

Definition chunk_content (cfg : Config) (content : string) : list string :=
  match chunks (fst (run_loop cfg content)) with
  | [] => [Py.slice_to content (chunk_size cfg)]
  | cs => cs
  end.

(** The trimmed text of every window the loop visits, kept or dropped: the
    same cursor as [chunk_loop], with the length test left out. Used to state
    what the length test keeps. *)
Fixpoint window_texts (fuel : nat) (cfg : Config) (content : string)
  (st : LoopState) : list string :=
  match fuel with
  | O => []
  | S fuel' =>
      if negb (start st <? Py.len content) then []
      else if start st =? last_start st then []
      else
        let st' := loop_body cfg content st in
        let chunk :=
          Py.strip (Py.slice content (start st)
                      (window_end cfg content (start st))) in
        chunk :: (if iteration st' >? Py.len content then []
                  else window_texts fuel' cfg content st')
  end.

Section WithFnmatch.

(** [fnmatch.fnmatch(name, pattern)] of the Python standard library. *)
Variable fnmatch : string -> string -> bool.

Definition file_excludes (p : Path) (pattern : string) : bool :=
  fnmatch (name p) pattern || fnmatch (rel_str p) pattern.

(** [should_ignore], returning the rule family whose [return True] fired
    ([None] for the final [return False]). *)
Definition ignore_rule (self : CodeProcessor) (p : Path) : option IgnoreRule :=
  let cfg := config self in
  let rel_path := rel_str p in
  if existsb (dir_excludes rel_path) (elements (exclude_dirs cfg))
  then Some ByExcludeDir
  else if existsb (file_excludes p) (elements (exclude_files cfg))
  then Some ByExcludeFile
  else if ignore_hidden cfg && Py.startswith (name p) "."
  then Some ByHidden
  else if existsb (gitignore_excludes (abs_str cfg p)) (gitignore_rules self)
  then Some ByGitignore
  else None.

Definition should_ignore (self : CodeProcessor) (p : Path) : bool :=
  match ignore_rule self p with
  | Some _ => true
  | None => false
  end.

End WithFnmatch.

Definition is_code_file (self : CodeProcessor) (t : Tree) (p : Path) : bool :=
  if negb (is_file t p) then false
  else bool_decide (Py.lower (suffix p) ∈ file_extensions (config self)).

Definition make_id (rel_path : string) (i : nat) : string :=
  rel_path +:+ "_" +:+ Py.str_of_nat i.

Definition make_record (p : Path) (total : nat) (i : nat) (chunk : string)
  : ChunkRecord :=
  {| document := chunk;
     metadata := {| source := rel_str p;
                    filename := name p;
                    extension := Py.lower (suffix p);
                    language := detect_language p;
                    chunk_index := i;
                    total_chunks := total;
                    directory := rel_str (parent p) |};
     id := make_id (rel_str p) i |}.

(** [process_file]: [None] for an empty or whitespace-only file, for a file
    that is not UTF-8 text, and for any other exception. *)
Definition process_file (self : CodeProcessor) (t : Tree) (p : Path)
  : option (list ChunkRecord) :=
  match read_text t p with
  | ReadOk content =>
      match Py.strip content with
      | "" => None
      | _ =>
          let cs := chunk_content (config self) content in
          Some (imap (make_record p (length cs)) cs)
      end
  | UnicodeDecodeError => None
  | OSError => None
  end.

End Processor.

(** ** State and exceptions *)

Module Exn.

Inductive Exception := StoreError | ValueError.

Inductive Result (A : Type) :=
| Return (a : A)
| Raise (e : Exception).
Arguments Return {A} a.
Arguments Raise {A} e.

(** A computation over a mutable state [S]: what it returns or raises, and the
    state it leaves (a raise keeps the writes made before it). *)
Definition M (S A : Type) : Type := S -> Result A * S.

Definition ret {S A} (a : A) : M S A := fun s => (Return a, s).

Definition bind {S A B} (m : M S A) (k : A -> M S B) : M S B :=
  fun s =>
    match m s with
    | (Return a, s') => k a s'
    | (Raise e, s') => (Raise e, s')
    end.

Definition raise {S A} (e : Exception) : M S A := fun s => (Raise e, s).

(** [try: body / except Exception: handler] *)
Definition try_except {S A} (body : M S A) (handler : Exception -> M S A)
  : M S A :=
  fun s =>
    match body s with
    | (Return a, s') => (Return a, s')
    | (Raise e, s') => handler e s'
    end.

Definition gets {S A} (f : S -> A) : M S A := fun s => (Return (f s), s).

Definition modify {S} (f : S -> S) : M S unit := fun s => (Return tt, f s).

(** Run a computation on a component of the state. *)
Definition zoom {S T A} (get : S -> T) (set : T -> S -> S) (m : M T A)
  : M S A :=
  fun s => let (r, t') := m (get s) in (r, set t' s).

#[global] Instance M_ret {S} : MRet (M S) := fun A => @ret S A.
#[global] Instance M_bind {S} : MBind (M S) := fun A B k m => @bind S A B m k.

End Exn.

(** ** The ChromaDB collection and [openrag/chroma/manager.py] *)

Module Chroma.
Import Exn Processor.

(** What the collection stores under an id (embeddings are left out). *)
Definition Row := (string * Metadata)%type.

(** What [collection.add] does with an id that is already stored. *)
Inductive DupPolicy := KeepExisting | Overwrite.

(** The remote collection: its rows, what it does with a known id, and
    whether each of the coming calls fails ([true]: that call raises and
    changes nothing; past the end of the list every call succeeds). *)
Record Collection := {
  docs : gmap string Row;
  on_duplicate : DupPolicy;
  outages : list bool
}.

Definition set_docs (d : gmap string Row) (c : Collection) : Collection :=
  {| docs := d; on_duplicate := on_duplicate c; outages := outages c |}.

(** Every call to the server consumes one entry of [outages]. *)
Definition server_call : M Collection unit :=
  fun c =>
    match outages c with
    | [] => (Return tt, c)
    | down :: rest =>
        let c' := {| docs := docs c; on_duplicate := on_duplicate c;
                     outages := rest |} in
        if down : bool then (Raise StoreError, c') else (Return tt, c')
    end.

Definition has_source (src : string) (kv : string * Row) : Prop :=
  source (snd (snd kv)) = src.

#[global] Instance has_source_dec src kv : Decision (has_source src kv).
Proof. unfold has_source. apply _. Defined.

(** [collection.get(where={"source": src})['ids']] *)
Definition collection_get_ids (src : string) : M Collection (list string) :=
  server_call ;;
  gets (fun c => (map_to_list (filter (has_source src) (docs c))).*1).

(** [collection.delete(ids=ids)] *)
Definition collection_delete (ids : list string) : M Collection unit :=
  server_call ;;
  modify (fun c => set_docs (foldr delete (docs c) ids) c).

Definition add_row (pol : DupPolicy) (m : gmap string Row)
  (r : string * Row) : gmap string Row :=
  match pol, m !! fst r with
  | KeepExisting, Some _ => m
  | _, _ => <[fst r := snd r]> m
  end.

Definition add_rows (pol : DupPolicy) (m : gmap string Row)
  (rs : list (string * Row)) : gmap string Row :=
  foldl (add_row pol) m rs.

Definition rows_of (documents : list string) (metadatas : list Metadata)
  (ids : list string) : list (string * Row) :=
  zip ids (zip documents metadatas).

(** [collection.add(documents=..., metadatas=..., ids=...)]; lists of
    different lengths are refused. *)
Definition collection_add (documents : list string)
  (metadatas : list Metadata) (ids : list string) : M Collection unit :=
  server_call ;;
  if bool_decide (length documents = length ids
                  ∧ length metadatas = length ids)
  then modify (fun c =>
         set_docs (add_rows (on_duplicate c) (docs c)
                     (rows_of documents metadatas ids)) c)
  else raise ValueError.

(** [delete_by_source] *)
Definition delete_by_source (src : string) : M Collection Z :=
  try_except
    (existing_ids ← collection_get_ids src;
     match existing_ids with
     | [] => mret 0
     | _ => collection_delete existing_ids ;;
            mret (Z.of_nat (length existing_ids))
     end)
    (fun _ => mret 0).

(** [l[i:e]] for [0 <= i], [0 <= e] *)
Definition list_slice {A} (l : list A) (i e : nat) : list A :=
  take (e - i)%nat (drop i l).

(** The [for i in range(0, len(documents), batch_size)] loop, from index [i]
    on; it runs at most [len(documents)] times. *)
Fixpoint add_batches (fuel : nat) (batch_size i : nat)
  (documents : list string) (metadatas : list Metadata) (ids : list string)
  : M Collection unit :=
  match fuel with
  | O => mret tt
  | S fuel' =>
      if (i <? length documents)%nat then
        let e := Nat.min (i + batch_size) (length documents) in
        collection_add (list_slice documents i e) (list_slice metadatas i e)
                       (list_slice ids i e) ;;
        add_batches fuel' batch_size (i + batch_size) documents metadatas ids
      else mret tt
  end.

(** [add_documents]: [range] raises on a zero step and is empty on a
    negative one. *)
Definition add_documents (cfg : Config) (documents : list string)
  (metadatas : list Metadata) (ids : list string) : M Collection unit :=
  let batch_size := Z.min (batch_size cfg) 50 in
  if batch_size =? 0 then raise ValueError
  else if batch_size <? 0 then mret tt
  else add_batches (length documents) (Z.to_nat batch_size) 0
                   documents metadatas ids.

End Chroma.

(** ** [openrag/indexer/watcher.py] *)

Module Watcher.
Import Exn Fs Processor Chroma.

(** [self.stats] *)
Record Stats := {
  indexed : Z;
  errors : Z;
  deleted : Z;
  skipped : Z
}.

(** The receiver [self] of the [CodeIndexerHandler] methods; its
    [collection_manager] is the collection the manager talks to. *)
Record CodeIndexerHandler := {
  processor : CodeProcessor;
  stats : Stats;
  collection : Collection
}.

Definition set_stats (f : Stats -> Stats) (h : CodeIndexerHandler)
  : CodeIndexerHandler :=
  {| processor := processor h; stats := f (stats h);
     collection := collection h |}.

Definition set_collection (c : Collection) (h : CodeIndexerHandler)
  : CodeIndexerHandler :=
  {| processor := processor h; stats := stats h; collection := c |}.

Definition incr_indexed (s : Stats) : Stats :=
  {| indexed := indexed s + 1; errors := errors s;
     deleted := deleted s; skipped := skipped s |}.
Definition incr_errors (s : Stats) : Stats :=
  {| indexed := indexed s; errors := errors s + 1;
     deleted := deleted s; skipped := skipped s |}.
Definition incr_deleted (s : Stats) : Stats :=
  {| indexed := indexed s; errors := errors s;
     deleted := deleted s + 1; skipped := skipped s |}.
Definition incr_skipped (s : Stats) : Stats :=
  {| indexed := indexed s; errors := errors s;
     deleted := deleted s; skipped := skipped s + 1 |}.

(** A call on [self.collection_manager]. *)
Definition on_manager {A} (m : M Collection A) : M CodeIndexerHandler A :=
  zoom collection set_collection m.

Section WithFnmatch.

Variable fnmatch : string -> string -> bool.

(** [CodeIndexerHandler.index_file] *)
Definition index_file (t : Tree) (file_path : Path)
  : M CodeIndexerHandler unit :=
  try_except
    (self ← gets processor;
     if negb (is_code_file self t file_path) then
       modify (set_stats incr_skipped)
     else if should_ignore fnmatch self file_path then
       modify (set_stats incr_skipped)
     else
       match process_file self t file_path with
       | None | Some [] => mret tt
       | Some chunks =>
           let rel_path := rel_str file_path in
           _ ← on_manager (delete_by_source rel_path);
           on_manager (add_documents (config self)
                         (map document chunks) (map metadata chunks)
                         (map id chunks)) ;;
           modify (set_stats incr_indexed)
       end)
    (fun _ => modify (set_stats incr_errors)).

(** [CodeIndexerHandler.remove_file] *)
Definition remove_file (file_path : Path) : M CodeIndexerHandler unit :=
  try_except
    (count ← on_manager (delete_by_source (rel_str file_path));
     if count >? 0 then modify (set_stats incr_deleted) else mret tt)
    (fun _ => modify (set_stats incr_errors)).

(** The body of the inner [for file in files] loop of
    [FileWatcher.initial_index], on [self.handler]; [files_found] is the
    running count it returns. *)
Definition initial_index_file (t : Tree) (file_path : Path) (files_found : Z)
  : M CodeIndexerHandler Z :=
  self ← gets processor;
  if negb (is_code_file self t file_path) then mret files_found
  else if should_ignore fnmatch self file_path then mret files_found
  else
    match process_file self t file_path with
    | None | Some [] => mret files_found
    | Some chunks =>
        on_manager (add_documents (config self)
                      (map document chunks) (map metadata chunks)
                      (map id chunks)) ;;
        mret (files_found + 1)
    end.

Fixpoint initial_index_files (t : Tree) (root : Path) (files : list string)
  (files_found : Z) : M CodeIndexerHandler Z :=
  match files with
  | [] => mret files_found
  | file :: rest =>
      n ← initial_index_file t (root ++ [file])%list files_found;
      initial_index_files t root rest n
  end.

Fixpoint initial_index_dirs (t : Tree) (dirs : list (Path * list string))
  (files_found : Z) : M CodeIndexerHandler Z :=
  match dirs with
  | [] => mret files_found
  | (root, files) :: rest =>
      n ← initial_index_files t root files files_found;
      initial_index_dirs t rest n
  end.

(** [FileWatcher.initial_index], on [self.handler]; it returns
    [files_found]. *)
Definition initial_index (t : Tree) : M CodeIndexerHandler Z :=
  self ← gets processor;
  initial_index_dirs t (walk (exclude_dirs (config self)) t) 0.

End WithFnmatch.

End Watcher.

(** ** [openrag/embeddings/ollama_embedding.py] *)

Module Ollama.

Section Embedding.

(** The numbers of an embedding vector, and [0.0]. *)
Variable num : Type.
Variable zero : num.

(** What [requests.post(.../api/embeddings, json={model, prompt})] gives:
    it raises, or it answers with a status code and a body whose
    ['embedding'] entry may be missing. *)
Inductive HttpOutcome :=
| RequestFailed
| Response (status_code : Z) (embedding : option (list num)).

Variable post : string -> HttpOutcome.

(** The body of the [try] block for one text: [None] when it raises. *)
Definition try_embed (text : string) : option (list num) :=
  let text := if Py.len text >? 8000 then Py.slice_to text 8000 else text in
  match post text with
  | RequestFailed => None
  | Response status_code body =>
      if negb (status_code =? 200) then None else body
  end.

Definition fallback : list num := repeat zero 768.

(** [OllamaEmbeddingFunction.__call__] *)
Definition call (texts : list string) : list (list num) :=
  map (fun text =>
         match try_embed text with
         | Some embedding => embedding
         | None => fallback
         end) texts.

End Embedding.

Arguments RequestFailed {num}.
Arguments Response {num} status_code embedding.

End Ollama.

(** ** Sample instances *)

Module Sample.
Import Fs Processor Chroma Watcher.

(** Patterns made of literal characters, [?] and [*]: the part of
    [fnmatch.fnmatch] the default [exclude_files] patterns use. *)
Fixpoint glob (pattern : string) : string -> bool :=
  match pattern with
  | "" => fun s => match s with "" => true | _ => false end
  | String c rest =>
      if Ascii.eqb c "*" then
        fix star (s : string) : bool :=
          glob rest s
          || match s with
             | "" => false
             | String _ s' => star s'
             end
      else
        fun s =>
          match s with
          | "" => false
          | String x s' => (Ascii.eqb c "?" || Ascii.eqb x c) && glob rest s'
          end
  end.

Definition fnmatch (name pattern : string) : bool := glob pattern name.

(** The defaults of [OpenRAGConfig], for a project at [/proj]. *)
Definition default_config : Config :=
  {| project_root := "/proj";
     file_extensions :=
       {[ ".go"; ".js"; ".jsx"; ".ts"; ".tsx"; ".sql"; ".yml"; ".yaml";
          ".json"; ".toml"; ".env"; ".conf"; ".md"; ".txt"; ".sh"; ".bash";
          ".html"; ".css"; ".scss"; ".py"; ".rb"; ".php"; ".java"; ".rs";
          ".cpp"; ".c"; ".h"; ".hpp"; ".cs"; ".swift"; ".kt"; ".jl" ]};
     exclude_dirs :=
       {[ ".git"; "__pycache__"; "venv"; "env"; ".env"; "dist"; "build";
          ".next"; "out"; "coverage"; ".vscode"; ".idea"; "node_modules";
          ".chroma_db"; ".pytest_cache"; ".mypy_cache"; ".ruff_cache";
          "target"; "bin"; "obj"; "vendor" ]};
     exclude_files :=
       {[ "*.pyc"; "*.pyo"; "*.pyd"; ".DS_Store"; "Thumbs.db"; "*.log";
          "*.lock"; "*.bak"; "*.swp"; "*.swo"; "*.tmp"; "*.cache" ]};
     chunk_size := 500;
     chunk_overlap := 100;
     batch_size := 10;
     ignore_hidden := true |}.

(** The configuration of [test_chunking_basic]. *)
Definition basic_config : Config :=
  {| project_root := project_root default_config;
     file_extensions := file_extensions default_config;
     exclude_dirs := exclude_dirs default_config;
     exclude_files := exclude_files default_config;
     chunk_size := 100;
     chunk_overlap := 20;
     batch_size := 50;
     ignore_hidden := true |}.

(** The largest overlap a chunk size of 100 admits. *)
Definition tight_config : Config :=
  {| project_root := project_root default_config;
     file_extensions := file_extensions default_config;
     exclude_dirs := exclude_dirs default_config;
     exclude_files := exclude_files default_config;
     chunk_size := 100;
     chunk_overlap := 99;
     batch_size := 50;
     ignore_hidden := true |}.

(** [c * n] *)
Fixpoint repeat_char (c : ascii) (n : nat) : string :=
  match n with
  | O => ""
  | S k => String c (repeat_char c k)
  end.

Definition no_stats : Stats :=
  {| indexed := 0; errors := 0; deleted := 0; skipped := 0 |}.

Definition default_processor : CodeProcessor :=
  {| config := default_config; gitignore_rules := [] |}.

(** A project with one Python file of sixty characters. *)
Definition one_file_tree : Tree :=
  [ FileNode "a.py" (ReadOk (repeat_char "x" 60)) ].

(** A chunk left over from an earlier, longer version of [a.py]. *)
Definition stale_row : Row :=
  ("old text",
   {| source := "a.py"; filename := "a.py"; extension := ".py";
      language := "python"; chunk_index := 1; total_chunks := 2;
      directory := "." |}).

Definition stale_handler : CodeIndexerHandler :=
  {| processor := default_processor;
     stats := no_stats;
     collection := {| docs := {[ "a.py_1" := stale_row ]};
                      on_duplicate := KeepExisting;
                      outages := [] |} |}.

(** The same handler in front of a collection whose next call fails. *)
Definition outage_handler : CodeIndexerHandler :=
  {| processor := default_processor;
     stats := no_stats;
     collection := {| docs := {[ "a.py_1" := stale_row ]};
                      on_duplicate := KeepExisting;
                      outages := [true] |} |}.

(** A project whose only file has an extension outside the allow-list. *)
Definition exe_tree : Tree := [ FileNode "tool.exe" (ReadOk "MZ") ].

(** A project whose only file is not UTF-8 text. *)
Definition binary_tree : Tree := [ FileNode "blob.py" UnicodeDecodeError ].

Definition empty_handler : CodeIndexerHandler :=
  {| processor := default_processor;
     stats := no_stats;
     collection := {| docs := ∅; on_duplicate := KeepExisting;
                      outages := [] |} |}.

End Sample.

(** ** Notions used to state the properties *)

Module Spec.
Import Exn Fs Processor Chroma Watcher.

(** Every character of [s] is white space: [not s.strip()]. *)
Fixpoint all_space (s : string) : bool :=
  match s with
  | "" => true
  | String c r => Py.is_space c && all_space r
  end.

(** The rows of a collection that do not belong to [src]. *)
Definition without_source (src : string) (m : gmap string Row)
  : gmap string Row :=
  filter (fun kv => ¬ has_source src kv) m.

(** The collection after one more call to the server. *)
Definition pop_outage (c : Collection) : Collection :=
  {| docs := docs c; on_duplicate := on_duplicate c;
     outages := tail (outages c) |}.

(** What one added row does to the entry stored under [k]. *)
Definition settle_step (pol : DupPolicy) (k : string) (acc : option Row)
  (r : string * Row) : option Row :=
  if decide (fst r = k) then
    match pol, acc with
    | KeepExisting, Some _ => acc
    | _, _ => Some (snd r)
    end
  else acc.

(** The entry under [k] after adding [rs] to a collection that held [init]
    under [k]. *)
Definition settle (pol : DupPolicy) (k : string) (init : option Row)
  (rs : list (string * Row)) : option Row :=
  foldl (settle_step pol k) init rs.

(** The row [index_file] sends to the collection for a chunk record. *)
Definition record_row (c : ChunkRecord) : string * Row :=
  (id c, (document c, metadata c)).

(** The rows [add_documents] sends for [chunks] under [cfg]: all of them for
    a positive batch size, none otherwise. *)
Definition sent_rows (cfg : Config) (chunks : list ChunkRecord)
  : list (string * Row) :=
  if 0 <? Z.min (batch_size cfg) 50 then map record_row chunks else [].

(** A file passes both gates of [index_file]. *)
Definition qualifies (fnmatch : string -> string -> bool)
  (self : CodeProcessor) (t : Tree) (p : Path) : bool :=
  is_code_file self t p && negb (should_ignore fnmatch self p).

(** The four rule families of [should_ignore], each on its own. *)
Definition matches_exclude_dir (cfg : Config) (p : Path) : Prop :=
  exists d, d ∈ exclude_dirs cfg /\ dir_excludes (rel_str p) d = true.

Definition matches_exclude_file (fnmatch : string -> string -> bool)
  (cfg : Config) (p : Path) : Prop :=
  exists pattern,
    pattern ∈ exclude_files cfg
    /\ (fnmatch (name p) pattern = true
        \/ fnmatch (rel_str p) pattern = true).

Definition matches_hidden (cfg : Config) (p : Path) : Prop :=
  ignore_hidden cfg = true /\ Py.startswith (name p) "." = true.

Definition matches_gitignore (self : CodeProcessor) (p : Path) : Prop :=
  exists dir matcher,
    (dir, matcher) ∈ gitignore_rules self
    /\ Py.startswith (abs_str (config self) p) dir = true
    /\ matcher (abs_str (config self) p) = Some true.

(** The embedding model answers with vectors of length [d]. *)
Definition has_dimension {num : Type} (post : string -> Ollama.HttpOutcome num)
  (d : nat) : Prop :=
  forall text e, Ollama.try_embed num post text = Some e -> length e = d.

(** A model of dimension 1024 that answers every prompt but ["bad"]. *)
Definition sample_post (prompt : string) : Ollama.HttpOutcome Z :=
  if String.eqb prompt "bad" then Ollama.RequestFailed
  else Ollama.Response 200 (Some (repeat 1 1024)).

End Spec.

(** ** The rest of [CodeProcessor]: loading the [.gitignore] rules *)

Module Gitignore.
Import Fs Processor.

Section WithParser.

(** [gitignore_parser.parse_gitignore(path, base_dir=...)]: the matcher it
    builds, or [None] when it raises. *)
Variable parse_gitignore : string -> string -> option Matcher.

(** [str(Path(root))] for a directory [os.walk] visits. *)
Definition dir_str (cfg : Config) (root : Path) : string :=
  match root with
  | [] => project_root cfg
  | _ => abs_str cfg root
  end.

(** What one directory of the walk contributes to [self.gitignore_rules]. *)
Definition rules_of_dir (cfg : Config) (entry : Path * list string)
  : list GitignoreRule :=
  if bool_decide (".gitignore" ∈ snd entry) then
    match parse_gitignore (abs_str cfg (fst entry ++ [".gitignore"])%list)
            (dir_str cfg (fst entry)) with
    | Some matches => [(dir_str cfg (fst entry), matches)]
    | None => []
    end
  else [].

(** [_load_gitignore_rules]: the new value of [self.gitignore_rules]. The
    walk is not pruned here. *)
Definition _load_gitignore_rules (cfg : Config) (t : Tree)
  : list GitignoreRule :=
  flat_map (rules_of_dir cfg) (walk ∅ t).

(** [reload_gitignore_rules] *)
Definition reload_gitignore_rules (self : CodeProcessor) (t : Tree)
  : CodeProcessor :=
  {| config := config self;
     gitignore_rules := _load_gitignore_rules (config self) t |}.

End WithParser.

End Gitignore.

(** ** The event handlers of [CodeIndexerHandler] *)

Module Events.
Import Exn Fs Processor Chroma Watcher Gitignore.

(** The fields of a [watchdog] event the handlers read; [dest_path] is
    meaningful for a move only. *)
Record FileSystemEvent := {
  is_directory : bool;
  src_path : Path;
  dest_path : Path
}.

Definition set_processor (pr : CodeProcessor) (h : CodeIndexerHandler)
  : CodeIndexerHandler :=
  {| processor := pr; stats := stats h; collection := collection h |}.

Section WithLibs.

Variable fnmatch : string -> string -> bool.
Variable parse_gitignore : string -> string -> option Matcher.

(** [_handle_gitignore_change]; [t] is the file system at the time of the
    event. *)
Definition _handle_gitignore_change (t : Tree) (file_path : Path)
  : M CodeIndexerHandler unit :=
  if String.eqb (name file_path) ".gitignore" then
    modify (fun h =>
      set_processor (reload_gitignore_rules parse_gitignore (processor h) t) h)
  else mret tt.

Definition on_modified (t : Tree) (event : FileSystemEvent)
  : M CodeIndexerHandler unit :=
  if negb (is_directory event) then
    _handle_gitignore_change t (src_path event) ;;
    index_file fnmatch t (src_path event)
  else mret tt.

Definition on_created (t : Tree) (event : FileSystemEvent)
  : M CodeIndexerHandler unit :=
  if negb (is_directory event) then
    _handle_gitignore_change t (src_path event) ;;
    index_file fnmatch t (src_path event)
  else mret tt.

Definition on_deleted (t : Tree) (event : FileSystemEvent)
  : M CodeIndexerHandler unit :=
  if negb (is_directory event) then
    _handle_gitignore_change t (src_path event) ;;
    remove_file (src_path event)
  else mret tt.

Definition on_moved (t : Tree) (event : FileSystemEvent)
  : M CodeIndexerHandler unit :=
  if negb (is_directory event) then
    _handle_gitignore_change t (src_path event) ;;
    _handle_gitignore_change t (dest_path event) ;;
    remove_file (src_path event) ;;
    index_file fnmatch t (dest_path event)
  else mret tt.

End WithLibs.

End Events.

(** ** [ChromaCollectionManager.get_collection_info] *)

Module Info.
Import Exn Processor Chroma.





End Info.

(** ** [OllamaEmbeddingFunction._test_connection] *)

Module OllamaConnection.

(** What [requests.get(.../api/tags)] and the decoding of its body give:
    the server cannot be reached, something else fails (a timeout, a body
    that is not the expected JSON), or a status code and the names of the
    installed models. *)
Inductive TagsOutcome :=
| Unreachable
| TagsFailed
| TagsResponse (status_code : Z) (model_names : list string).

(** How [_test_connection] ends. *)
Inductive ConnectionResult :=
| Connected
| RaisesConnectionError
| RaisesValueError
| RaisesOther.

(** [s.split(sep)[0]] for a one-character [sep] *)
Fixpoint split_head (sep : ascii) (s : string) : string :=
  match s with
  | "" => ""
  | String c r => if Ascii.eqb c sep then "" else String c (split_head sep r)
  end.

Definition _test_connection (model_name : string) (tags : TagsOutcome)
  : ConnectionResult :=
  match tags with
  | Unreachable => RaisesConnectionError
  | TagsFailed => RaisesOther
  | TagsResponse status_code model_names =>
      if negb (status_code =? 200) then RaisesConnectionError
      else if bool_decide (model_name ∈ model_names) then Connected
      else
        let base_name := split_head ":" model_name in
        if existsb (fun m => Py.startswith m base_name) model_names
        then Connected
        else RaisesValueError
  end.

End OllamaConnection.

(** ** The result formatting of the [/query] endpoint
       ([openrag/query/server.py]) *)

Module Query.
Import Processor.

Section Formatting.

(** The floats of the distances, and [1 - distance]. *)
Variable num : Type.
Variable one_minus : num -> num.

(** One entry of [formatted_results]. *)
Record FormattedResult := {
  result_id : Z;
  content : string;
  result_metadata : Metadata;
  similarity : num
}.

(** [doc[:500] + "..." if len(doc) > 500 else doc] *)
Definition format_content (doc : string) : string :=
  if Py.len doc >? 500 then Py.slice_to doc 500 +:+ "..." else doc.

(** The loop over [enumerate(zip(documents, metadatas, distances))]. *)
Definition formatted_results (documents : list string)
  (metadatas : list Metadata) (distances : list num)
  : list FormattedResult :=
  imap (fun i '(doc, (metadata, distance)) =>
          {| result_id := Z.of_nat i + 1;
             content := format_content doc;
             result_metadata := metadata;
             similarity := one_minus distance |})
       (zip documents (zip metadatas distances)).

End Formatting.

Arguments result_id {num} _.
Arguments content {num} _.
Arguments result_metadata {num} _.
Arguments similarity {num} _.

End Query.

(** ** Further notions used to state properties *)

Module Spec2.
Import Exn Fs Processor Chroma Watcher.

(** What [initial_index] keeps fixed: the processor, the counters, and the
    ids present in the collection. *)
Definition walk_keeps (h h' : CodeIndexerHandler) : Prop :=
  processor h' = processor h
  /\ stats h' = stats h
  /\ forall k, is_Some (docs (collection h) !! k) ->
               is_Some (docs (collection h') !! k).

(** A directory of the walk none of whose components is excluded. *)
Definition clear_of_excluded (excl : gset string)
  (entry : Path * list string) : Prop :=
  Forall (fun d => d ∉ excl) (fst entry).

#[global] Instance clear_of_excluded_dec excl entry :
  Decision (clear_of_excluded excl entry).
Proof. unfold clear_of_excluded. apply _. Defined.

End Spec2.

(** ** Further sample inputs *)

Module Sample2.
Import Fs Processor Chroma Watcher.

(** The defaults with batches of two rows. *)
Definition small_batch_config : Config :=
  {| project_root := project_root Sample.default_config;
     file_extensions := file_extensions Sample.default_config;
     exclude_dirs := exclude_dirs Sample.default_config;
     exclude_files := exclude_files Sample.default_config;
     chunk_size := chunk_size Sample.default_config;
     chunk_overlap := chunk_overlap Sample.default_config;
     batch_size := 2;
     ignore_hidden := ignore_hidden Sample.default_config |}.

Definition chunk_metadata (i : nat) : Metadata :=
  {| source := "a.py"; filename := "a.py"; extension := ".py";
     language := "python"; chunk_index := i; total_chunks := 3;
     directory := "." |}.

(** A collection that answers one call and fails on the next. *)
Definition flaky_collection : Collection :=
  {| docs := ∅; on_duplicate := KeepExisting; outages := [false; true] |}.

(** A project with two Python files. *)
Definition two_file_tree : Tree :=
  [ FileNode "a.py" (ReadOk (Sample.repeat_char "x" 60));
    FileNode "b.py" (ReadOk (Sample.repeat_char "y" 70)) ].

(** A handler whose configuration asks for batches of no rows, in front of
    the collection of [Sample.stale_handler]. *)
Definition zero_batch_handler : CodeIndexerHandler :=
  {| processor :=
       {| config :=
            {| project_root := project_root Sample.default_config;
               file_extensions := file_extensions Sample.default_config;
               exclude_dirs := exclude_dirs Sample.default_config;
               exclude_files := exclude_files Sample.default_config;
               chunk_size := chunk_size Sample.default_config;
               chunk_overlap := chunk_overlap Sample.default_config;
               batch_size := 0;
               ignore_hidden := ignore_hidden Sample.default_config |};
          gitignore_rules := [] |};
     stats := Sample.no_stats;
     collection := collection Sample.stale_handler |}.

End Sample2.

(** * Properties *)

Import Exn Fs Processor Chroma Watcher Spec.
Import Spec2.

(** ** Strings *)

Lemma len_nonneg s : 0 <= Py.len s.
Proof. unfold Py.len. lia. Qed.

Lemma all_space_take n s : all_space s = true -> all_space (Py.take n s) = true.
Proof.
  revert s. induction n as [|n IH]; intros [|c r]; simpl; auto.
  intros H. apply andb_true_iff in H as [Hc Hr].
  rewrite Hc. simpl. auto.
Qed.

Lemma all_space_drop n s : all_space s = true -> all_space (Py.drop n s) = true.
Proof.
  revert s. induction n as [|n IH]; intros [|c r]; simpl; auto.
  intros H. apply andb_true_iff in H as [_ Hr]. auto.
Qed.

Lemma all_space_slice s i j : all_space s = true -> all_space (Py.slice s i j) = true.
Proof. intros H. unfold Py.slice. by apply all_space_take, all_space_drop. Qed.

Lemma rstrip_all_space s : all_space s = true -> Py.rstrip s = "".
Proof.
  induction s as [|c r IH]; simpl; [done|].
  intros H. apply andb_true_iff in H as [Hc Hr].
  rewrite (IH Hr), Hc. done.
Qed.

Lemma rstrip_empty_inv s : Py.rstrip s = "" -> all_space s = true.
Proof.
  induction s as [|c r IH]; simpl; [done|].
  destruct (Py.rstrip r) eqn:E; [|discriminate].
  destruct (Py.is_space c); [|discriminate].
  intros _. simpl. auto.
Qed.

Lemma lstrip_all_space s : all_space s = true -> Py.lstrip s = "".
Proof.
  induction s as [|c r IH]; simpl; [done|].
  intros H. apply andb_true_iff in H as [Hc Hr]. rewrite Hc. auto.
Qed.

Lemma lstrip_empty_inv s : Py.lstrip s = "" -> all_space s = true.
Proof.
  induction s as [|c r IH]; simpl; [done|].
  destruct (Py.is_space c); [|discriminate]. simpl. auto.
Qed.

(** [rstrip] only removes characters: what it leaves white is white in [s]. *)
Lemma rstrip_all_space_inv s : all_space (Py.rstrip s) = true -> all_space s = true.
Proof.
  induction s as [|c r IH]; simpl; [done|].
  destruct (Py.rstrip r) eqn:E.
  - destruct (Py.is_space c) eqn:Hc; simpl; rewrite ?Hc; simpl.
    + intros _. by apply rstrip_empty_inv.
    + intros H. discriminate.
  - simpl. intros H. apply andb_true_iff in H as [Hc Hr].
    rewrite Hc. simpl. apply IH. exact Hr.
Qed.

Lemma strip_all_space s : all_space s = true -> Py.strip s = "".
Proof. intros H. unfold Py.strip. by rewrite (rstrip_all_space _ H). Qed.

Lemma strip_empty_iff s : Py.strip s = "" <-> all_space s = true.
Proof.
  split; [|apply strip_all_space].
  unfold Py.strip. intros H.
  apply rstrip_all_space_inv, lstrip_empty_inv, H.
Qed.

(** ** The chunking loop *)

Section ChunkLoop.

Variable cfg : Config.
Variable content : string.

Lemma window_end_gt s :
  0 < chunk_size cfg -> s < Py.len content -> s < window_end cfg content s.
Proof.
  intros Hcs Hs. unfold window_end.
  destruct (_ <? Py.len content); [|lia].
  destruct (_ >? s) eqn:E; lia.
Qed.

Lemma next_start_gt s e : s < e -> s < next_start cfg s e.
Proof.
  intros H. unfold next_start.
  destruct (_ <=? s) eqn:E; lia.
Qed.

(** One iteration moves the cursor forward. *)
Lemma loop_body_progress st :
  0 < chunk_size cfg -> start st < Py.len content ->
  start st < start (loop_body cfg content st).
Proof.
  intros Hcs Hs. simpl. by apply next_start_gt, window_end_gt.
Qed.

(** The iteration guard bounds the loop under every configuration: from a
    state with [iteration <= len(content)], more fuel than
    [len(content) - iteration] changes nothing. *)
Lemma chunk_loop_fuel_mono fuel : forall st fuel',
  iteration st <= Py.len content ->
  Py.len content - iteration st < Z.of_nat fuel ->
  (fuel <= fuel')%nat ->
  chunk_loop fuel' cfg content st = chunk_loop fuel cfg content st
  /\ snd (chunk_loop fuel cfg content st) <> OutOfFuel.
Proof.
  induction fuel as [|fuel IH]; intros st fuel' Hit Hfuel Hle; [lia|].
  destruct fuel' as [|fuel']; [lia|]. simpl.
  destruct (negb _); [done|].
  destruct (_ =? _); [done|].
  destruct (_ >? Py.len content) eqn:E; [done|].
  apply IH; simpl in *; lia.
Qed.

Lemma chunk_loop_fuel_enough fuel :
  (String.length content < fuel)%nat ->
  chunk_loop fuel cfg content loop_init = run_loop cfg content
  /\ snd (run_loop cfg content) <> OutOfFuel.
Proof.
  intros H. unfold run_loop. pose proof (len_nonneg content).
  apply chunk_loop_fuel_mono; unfold Py.len in *; simpl; lia.
Qed.

(** With [0 <= overlap < chunk_size] neither [break] is taken: the loop is
    left through its condition, after at most [len(content)] iterations. *)
Lemma chunk_loop_leaves_by_condition fuel : forall st,
  0 <= chunk_overlap cfg < chunk_size cfg ->
  last_start st < start st ->
  iteration st <= start st ->
  iteration st <= Py.len content ->
  Z.max 0 (Py.len content - start st) < Z.of_nat fuel ->
  exists st',
    chunk_loop fuel cfg content st = (st', CondFalse)
    /\ Py.len content <= start st'
    /\ iteration st' <= Py.len content.
Proof.
  induction fuel as [|fuel IH]; intros st Hcfg Hlast Hit Hlen Hfuel; [lia|].
  simpl.
  destruct (start st <? Py.len content) eqn:Hcond; simpl.
  - apply Z.ltb_lt in Hcond.
    destruct (start st =? last_start st) eqn:Hstall; [lia|].
    pose proof (loop_body_progress st ltac:(lia) Hcond) as Hprog.
    destruct (_ >? Py.len content) eqn:Hbreak; [simpl in *; lia|].
    apply IH; simpl in *; try lia.
  - apply Z.ltb_ge in Hcond. eauto.
Qed.

(** What the loop collects is what the length test keeps of the windows it
    visits. *)
Lemma chunk_loop_chunks fuel : forall st,
  chunks (fst (chunk_loop fuel cfg content st))
  = (chunks st
     ++ filter (fun c => 50 < Py.len c) (window_texts fuel cfg content st))%list.
Proof.
  induction fuel as [|fuel IH]; intros st; simpl.
  - by rewrite app_nil_r.
  - destruct (negb _); simpl; [by rewrite app_nil_r|].
    destruct (_ =? _); simpl; [by rewrite app_nil_r|].
    rewrite filter_cons.
    destruct (_ >? Py.len content); simpl; [|rewrite IH; simpl];
      set (chunk := Py.strip _);
      destruct (Py.len chunk >? 50) eqn:E; case_decide; try lia;
      by rewrite ?filter_nil, ?app_nil_r, <- ?app_assoc.
Qed.

Lemma window_texts_all_space fuel : forall st,
  all_space content = true ->
  Forall (fun c => c = "") (window_texts fuel cfg content st).
Proof.
  induction fuel as [|fuel IH]; intros st Hws; simpl; [constructor|].
  destruct (negb _); [constructor|].
  destruct (_ =? _); [constructor|].
  constructor.
  - by apply strip_all_space, all_space_slice.
  - destruct (_ >? _); [constructor|]. by apply IH.
Qed.

Lemma filter_long_of_empty (l : list string) :
  Forall (fun c => c = "") l -> filter (fun c => 50 < Py.len c) l = [].
Proof.
  induction 1 as [|c l Hc _ IH]; [done|].
  rewrite filter_cons, IH. subst c. case_decide; [|done].
  unfold Py.len in *. simpl in *. lia.
Qed.

Lemma run_loop_all_space :
  all_space content = true -> chunks (fst (run_loop cfg content)) = [].
Proof.
  intros Hws. unfold run_loop. rewrite chunk_loop_chunks.
  change (chunks loop_init) with (@nil string). rewrite app_nil_l.
  by apply filter_long_of_empty, window_texts_all_space.
Qed.

End ChunkLoop.

(** ** [chunk_content] *)

(** C2, at the input of [test_chunking_basic]: 250 times ['a'] with
    [chunk_size = 100] and [overlap = 20] does not give chunks of lengths 100,
    100 and 50, the lengths the test's comment announces. *)
Lemma chunk_basic_lengths_not_100_100_50 :
  map Py.len (chunk_content Sample.basic_config (Sample.repeat_char "a" 250))
  <> [100; 100; 50].
Proof. vm_compute. discriminate. Qed.

(** C2, what the code returns: for 250 times ['a'], [chunk_size = 100] and
    [overlap = 20], [chunk_content] returns exactly three chunks, of lengths
    100, 100 and 90, where [test_chunking_basic] asserts
    [len(chunks[2]) <= 50]: the windows start at 0, 80 and 160, and the fourth
    window (20 characters from 230) is dropped by the length test. *)
Theorem chunk_basic_lengths cfg :
  chunk_size cfg = 100 -> chunk_overlap cfg = 20 ->
  chunk_content cfg (Sample.repeat_char "a" 250)
  = [Sample.repeat_char "a" 100; Sample.repeat_char "a" 100;
     Sample.repeat_char "a" 90]
  /\ map Py.len (chunk_content cfg (Sample.repeat_char "a" 250))
     = [100; 100; 90]
  /\ map (fun st => start st)
       [loop_body cfg (Sample.repeat_char "a" 250) loop_init;
        loop_body cfg (Sample.repeat_char "a" 250)
          (loop_body cfg (Sample.repeat_char "a" 250) loop_init)]
     = [80; 160].
Proof.
  destruct cfg as [root exts dirs files cs ov bs hid]. simpl.
  intros -> ->. by vm_compute.
Qed.

Lemma chunk_basic_lengths_witness :
  map Py.len (chunk_content Sample.basic_config (Sample.repeat_char "a" 250))
  = [100; 100; 90].
Proof.
  apply (chunk_basic_lengths Sample.basic_config); reflexivity.
Defined.

(** C5: for every content and every configuration with
    [0 <= overlap < chunk_size], the end of a window, newline snapping
    included, lies strictly after its start, each iteration of the loop moves
    [start] strictly forward, and the loop is left because
    [start < len(content)] became false, after at most [len(content)]
    iterations; neither the stalled-cursor [break] nor the iteration-count
    [break] is taken, and no amount of further unrolling changes the
    result. *)
Theorem chunk_content_terminates cfg content :
  0 <= chunk_overlap cfg < chunk_size cfg ->
  (forall s, s < Py.len content -> s < window_end cfg content s)
  /\ (forall st, start st < Py.len content ->
                 start st < start (loop_body cfg content st))
  /\ exists st,
       (forall fuel, (String.length content < fuel)%nat ->
                     chunk_loop fuel cfg content loop_init = (st, CondFalse))
       /\ run_loop cfg content = (st, CondFalse)
       /\ Py.len content <= start st
       /\ iteration st <= Py.len content.
Proof.
  intros Hcfg. split; [|split].
  - intros s. apply window_end_gt. lia.
  - intros st. apply loop_body_progress. lia.
  - pose proof (len_nonneg content) as Hlen.
    destruct (chunk_loop_leaves_by_condition cfg content
                (S (String.length content)) loop_init Hcfg)
      as (st & Hrun & Hstart & Hit); simpl; try lia.
    { unfold Py.len. lia. }
    exists st. repeat split; try done.
    intros fuel Hfuel.
    destruct (chunk_loop_fuel_enough cfg content fuel Hfuel) as [-> _].
    exact Hrun.
Qed.

Lemma chunk_content_terminates_witness :
  exists st,
    run_loop Sample.tight_config (Sample.repeat_char "a" 250) = (st, CondFalse).
Proof.
  destruct (chunk_content_terminates Sample.tight_config
              (Sample.repeat_char "a" 250)) as (_ & _ & st & _ & Hrun & _).
  - simpl. lia.
  - exists st. exact Hrun.
Defined.

(** C8: the length test of the loop is [len(chunk) > 50] on the trimmed
    window: an iteration appends the trimmed window exactly when it is longer
    than 50 characters, so the loop collects exactly the trimmed windows
    longer than 50; a window of exactly 50 characters is dropped, one of 51 is
    kept. *)
Theorem min_chunk_length_strict :
  (forall cfg content st,
     let chunk :=
       Py.strip (Py.slice content (start st)
                   (window_end cfg content (start st))) in
     chunks (loop_body cfg content st)
     = if decide (50 < Py.len chunk) then (chunks st ++ [chunk])%list
       else chunks st)
  /\ (forall cfg content,
        chunks (fst (run_loop cfg content))
        = filter (fun c => 50 < Py.len c)
            (window_texts (S (String.length content)) cfg content loop_init))
  /\ chunks (fst (run_loop Sample.basic_config (Sample.repeat_char "a" 50))) = []
  /\ chunks (fst (run_loop Sample.basic_config (Sample.repeat_char "a" 51)))
     = [Sample.repeat_char "a" 51].
Proof.
  repeat split.
  - intros cfg content st chunk. simpl. fold chunk.
    destruct (Py.len chunk >? 50) eqn:E; case_decide; try lia; done.
  - intros cfg content. unfold run_loop. by rewrite chunk_loop_chunks.
Qed.

(** C10: when the loop kept no chunk, [chunk_content] returns the single
    chunk [content[:chunk_size]], untrimmed; this is the case for empty and
    whitespace-only content, which [chunk_content] does not reject: the guard
    against such files is in [process_file], which returns [None] for
    them. *)
Theorem chunk_content_fallback :
  (forall cfg content,
     chunks (fst (run_loop cfg content)) = [] ->
     chunk_content cfg content = [Py.slice_to content (chunk_size cfg)])
  /\ (forall cfg content,
        Py.strip content = "" ->
        chunk_content cfg content = [Py.slice_to content (chunk_size cfg)]
        /\ all_space (Py.slice_to content (chunk_size cfg)) = true)
  /\ (forall self t p content,
        read_text t p = ReadOk content ->
        Py.strip content = "" ->
        process_file self t p = None).
Proof.
  repeat split.
  - intros cfg content H. unfold chunk_content. by rewrite H.
  - unfold chunk_content.
    by rewrite (run_loop_all_space cfg content (proj1 (strip_empty_iff _) H)).
  - by apply all_space_slice, strip_empty_iff.
  - intros self t p content Hread Hws. unfold process_file.
    by rewrite Hread, Hws.
Qed.

Lemma chunk_content_fallback_witness :
  chunk_content Sample.default_config "tiny" = ["tiny"]
  /\ chunk_content Sample.default_config "   " = ["   "]
  /\ chunk_content Sample.default_config "" = [""].
Proof.
  destruct chunk_content_fallback as (Hnone & Hws & _).
  split; [|split].
  - apply (Hnone Sample.default_config "tiny"). reflexivity.
  - apply (Hws Sample.default_config "   "). reflexivity.
  - apply (Hws Sample.default_config ""). reflexivity.
Defined.

(** ** The collection *)

Ltac unfold_monad :=
  unfold on_manager in *;
  unfold mbind, mret, M_bind, M_ret, bind, ret, raise, try_except, gets,
    modify, zoom in *.

Lemma set_docs_id c : set_docs (docs c) c = c.
Proof. by destruct c. Qed.

Lemma server_call_healthy c : outages c = [] -> server_call c = (Return tt, c).
Proof. intros H. unfold server_call. by rewrite H. Qed.

Lemma elem_of_keys {A} (k : string) (l : list (string * A)) :
  k ∈ l.*1 <-> exists v, (k, v) ∈ l.
Proof.
  rewrite list_elem_of_fmap. split.
  - intros [[k' v] [-> Hin]]. by exists v.
  - intros [v Hin]. by exists (k, v).
Qed.

(** Deleting the ids found for a predicate leaves the rows outside it. *)
Lemma foldr_delete_filter_keys {A} (P : string * A -> Prop)
  `{!forall kv, Decision (P kv)} (m : gmap string A) :
  foldr delete m (map_to_list (filter P m)).*1 = filter (fun kv => ¬ P kv) m.
Proof.
  apply map_eq. intros k.
  destruct (decide (k ∈ (map_to_list (filter P m)).*1)) as [Hin|Hout].
  - rewrite (lookup_foldr_delete _ _ _ Hin).
    apply elem_of_keys in Hin as [v Hv].
    apply elem_of_map_to_list, map_lookup_filter_Some in Hv as [Hm HP].
    symmetry. apply map_lookup_filter_None. right.
    intros x Hx. pose proof (eq_trans (eq_sym Hm) Hx) as E.
    injection E as <-. tauto.
  - rewrite (lookup_foldr_delete_not_elem_of _ _ _ Hout).
    destruct (m !! k) as [v|] eqn:Hm.
    + symmetry. apply map_lookup_filter_Some. split; [done|].
      intros HP. apply Hout, elem_of_keys. exists v.
      by apply elem_of_map_to_list, map_lookup_filter_Some.
    + symmetry. apply map_lookup_filter_None. by left.
Qed.

Lemma lookup_without_source src (m : gmap string Row) k :
  without_source src m !! k
  = match m !! k with
    | Some v => if decide (source (snd v) = src) then None else Some v
    | None => None
    end.
Proof.
  unfold without_source.
  destruct (m !! k) as [v|] eqn:Hm.
  - case_decide as Hsrc.
    + apply map_lookup_filter_None. right.
      intros x Hx. pose proof (eq_trans (eq_sym Hm) Hx) as E.
      injection E as <-. unfold has_source. simpl. tauto.
    + apply map_lookup_filter_Some. split; [done|].
      unfold has_source. by simpl.
  - apply map_lookup_filter_None. by left.
Qed.

Lemma lookup_add_rows pol rs : forall (m : gmap string Row) k,
  add_rows pol m rs !! k = settle pol k (m !! k) rs.
Proof.
  unfold add_rows, settle.
  induction rs as [|[k' v] rs IH]; intros m k; simpl; [done|].
  rewrite IH. f_equal. unfold add_row, settle_step. simpl.
  destruct (decide (k' = k)) as [->|Hne].
  - destruct pol, (m !! k) eqn:E; by rewrite ?lookup_insert_eq, ?E.
  - destruct pol, (m !! k') eqn:E; by rewrite ?lookup_insert_ne.
Qed.

Lemma settle_origin pol k rs : forall init v,
  settle pol k init rs = Some v -> init = Some v \/ (k, v) ∈ rs.
Proof.
  unfold settle.
  induction rs as [|[k' v'] rs IH]; intros init v; simpl; [by left|].
  intros H. apply IH in H as [H|H]; [|right; by right].
  unfold settle_step in H. simpl in H.
  case_decide as Hk; [|by left]. subst k'.
  destruct pol, init; try (by left);
    injection H as ->; right; by left.
Qed.

Lemma settle_keep k rs : forall v,
  settle KeepExisting k (Some v) rs = Some v.
Proof.
  unfold settle.
  induction rs as [|r rs IH]; intros v; simpl; [done|].
  unfold settle_step at 2. case_decide; apply IH.
Qed.

Lemma settle_overwrite k rs : forall init init',
  k ∈ rs.*1 ->
  settle Overwrite k init rs = settle Overwrite k init' rs.
Proof.
  unfold settle.
  induction rs as [|[k' v'] rs IH]; intros init init' Hin; simpl in *.
  - by apply elem_of_nil in Hin.
  - unfold settle_step at 2 4. simpl. case_decide as Hk; [done|].
    apply IH. apply elem_of_cons in Hin as [Hin|Hin]; [congruence|done].
Qed.

Lemma settle_absent pol k rs : forall init,
  k ∉ rs.*1 -> settle pol k init rs = init.
Proof.
  unfold settle.
  induction rs as [|[k' v'] rs IH]; intros init Hout; simpl in *; [done|].
  apply not_elem_of_cons in Hout as [Hne Hout].
  rewrite IH by done. unfold settle_step. simpl. by case_decide.
Qed.

Lemma settle_is_Some pol k rs : forall init,
  is_Some init \/ k ∈ rs.*1 -> is_Some (settle pol k init rs).
Proof.
  unfold settle.
  induction rs as [|[k' v'] rs IH]; intros init H; simpl in *.
  - destruct H as [H|H]; [done|]. by apply elem_of_nil in H.
  - apply IH. unfold settle_step. simpl.
    case_decide as Hk.
    + left. destruct pol, init; eauto.
    + destruct H as [H|H]; [by left|].
      apply elem_of_cons in H as [H|H]; [congruence|by right].
Qed.

(** ** [ChromaCollectionManager] *)

Lemma server_call_down c rest :
  outages c = true :: rest -> server_call c = (Raise StoreError, pop_outage c).
Proof. intros H. unfold server_call, pop_outage. by rewrite H. Qed.

Lemma server_call_up c rest :
  outages c = false :: rest -> server_call c = (Return tt, pop_outage c).
Proof. intros H. unfold server_call, pop_outage. by rewrite H. Qed.

Lemma server_call_docs c : docs (snd (server_call c)) = docs c.
Proof. unfold server_call. by destruct (outages c) as [|[] ?]. Qed.

(** [delete_by_source] returns normally whatever the collection does. *)
Lemma delete_by_source_returns src c :
  exists n c', delete_by_source src c = (Return n, c').
Proof.
  unfold delete_by_source, collection_get_ids, collection_delete. unfold_monad.
  destruct (server_call c) as [[[]|e] c1]; [|eauto].
  destruct ((map_to_list (filter (has_source src) (docs c1))).*1); [eauto|].
  destruct (server_call c1) as [[[]|e] c2]; eauto.
Qed.

(** A result of [0] means the rows are as they were. *)
Lemma delete_by_source_zero src c c' :
  delete_by_source src c = (Return 0, c') -> docs c' = docs c.
Proof.
  unfold delete_by_source, collection_get_ids, collection_delete. unfold_monad.
  pose proof (server_call_docs c) as H1.
  destruct (server_call c) as [[[]|e] c1]; simpl in *;
    [|intros [= <-]; done].
  destruct ((map_to_list (filter (has_source src) (docs c1))).*1) as [|i ids];
    [intros [= <-]; done|].
  pose proof (server_call_docs c1) as H2.
  destruct (server_call c1) as [[[]|e] c2]; simpl in *.
  - intros [=].
  - intros [= <-]. congruence.
Qed.

Lemma delete_by_source_down src c rest :
  outages c = true :: rest ->
  delete_by_source src c = (Return 0, pop_outage c).
Proof.
  intros H. unfold delete_by_source, collection_get_ids, collection_delete. unfold_monad.
  by rewrite (server_call_down _ _ H).
Qed.

(** The same when the lookup succeeds and the delete call fails. *)
Lemma delete_by_source_delete_down src c rest :
  outages c = false :: true :: rest ->
  exists c', delete_by_source src c = (Return 0, c') /\ docs c' = docs c.
Proof.
  intros H. unfold delete_by_source, collection_get_ids, collection_delete.
  unfold_monad. rewrite (server_call_up _ _ H).
  destruct ((map_to_list (filter (has_source src) (docs (pop_outage c)))).*1);
    [by eexists|].
  rewrite (server_call_down (pop_outage c) rest)
    by (unfold pop_outage; simpl; by rewrite H).
  by eexists.
Qed.

Lemma delete_by_source_healthy src c :
  outages c = [] ->
  exists n,
    delete_by_source src c
    = (Return n, set_docs (without_source src (docs c)) c).
Proof.
  intros H. unfold delete_by_source, collection_get_ids, collection_delete. unfold_monad.
  rewrite (server_call_healthy _ H).
  pose proof (foldr_delete_filter_keys (has_source src) (docs c)) as Hdel.
  fold (without_source src (docs c)) in Hdel.
  destruct ((map_to_list (filter (has_source src) (docs c))).*1) as [|i ids].
  - simpl in Hdel. rewrite <- Hdel, set_docs_id. eauto.
  - rewrite (server_call_healthy _ H). rewrite Hdel. eauto.
Qed.

Lemma rows_of_slice documents metadatas ids i e :
  rows_of (list_slice documents i e) (list_slice metadatas i e)
          (list_slice ids i e)
  = list_slice (rows_of documents metadatas ids) i e.
Proof.
  unfold rows_of, list_slice.
  by rewrite !zip_with_drop, !zip_with_take.
Qed.

Lemma length_rows_of documents metadatas ids :
  length documents = length ids -> length metadatas = length ids ->
  length (rows_of documents metadatas ids) = length ids.
Proof.
  intros H1 H2. unfold rows_of. rewrite !length_zip_with. lia.
Qed.

Lemma add_rows_app pol (m : gmap string Row) rs1 rs2 :
  add_rows pol (add_rows pol m rs1) rs2 = add_rows pol m (rs1 ++ rs2).
Proof. unfold add_rows. by rewrite foldl_app. Qed.

(** On a collection without outages the batches add up to one [add] of all
    rows from index [i] on. *)
Lemma add_batches_healthy documents metadatas ids step fuel : forall i c,
  outages c = [] ->
  length documents = length ids -> length metadatas = length ids ->
  (0 < step)%nat -> (length documents - i <= fuel)%nat ->
  add_batches fuel step i documents metadatas ids c
  = (Return tt,
     set_docs (add_rows (on_duplicate c) (docs c)
                 (drop i (rows_of documents metadatas ids))) c).
Proof.
  induction fuel as [|fuel IH]; intros i c Hc Hd Hm Hstep Hfuel; simpl.
  - rewrite drop_ge by (rewrite length_rows_of by done; lia).
    simpl. by rewrite set_docs_id.
  - destruct (i <? length documents)%nat eqn:Hi.
    + apply Nat.ltb_lt in Hi. unfold_monad.
      unfold collection_add at 1. unfold_monad.
      rewrite (server_call_healthy _ Hc).
      rewrite bool_decide_eq_true_2
        by (unfold list_slice; rewrite !length_take, !length_drop; lia).
      rewrite IH; try done; [|simpl; lia].
      simpl. rewrite rows_of_slice, add_rows_app.
      change (set_docs ?d (set_docs ?d' c)) with (set_docs d c).
      do 3 f_equal.
      unfold list_slice.
      set (rows := rows_of documents metadatas ids).
      assert (length rows = length documents) as Hrows
        by (unfold rows; rewrite length_rows_of by done; lia).
      destruct (decide (i + step <= length documents)%nat) as [Hle|Hgt].
      * rewrite Nat.min_l by done.
        replace (i + step - i)%nat with step by lia.
        rewrite <- (drop_drop rows step i).
        apply take_drop.
      * rewrite Nat.min_r by lia.
        rewrite (drop_ge rows (i + step)) by lia.
        rewrite take_ge by (rewrite length_drop; lia).
        apply app_nil_r.
    + apply Nat.ltb_ge in Hi.
      rewrite drop_ge by (rewrite length_rows_of by done; lia).
      simpl. by rewrite set_docs_id.
Qed.

Lemma add_documents_healthy cfg documents metadatas ids c :
  outages c = [] ->
  length documents = length ids -> length metadatas = length ids ->
  add_documents cfg documents metadatas ids c
  = if Z.min (batch_size cfg) 50 =? 0 then (Raise ValueError, c)
    else (Return tt,
          set_docs (add_rows (on_duplicate c) (docs c)
                      (if 0 <? Z.min (batch_size cfg) 50
                       then rows_of documents metadatas ids else [])) c).
Proof.
  intros Hc Hd Hm. unfold add_documents.
  destruct (_ =? 0) eqn:E0; [done|].
  destruct (_ <? 0) eqn:E1.
  - replace (0 <? _) with false by lia. simpl. by rewrite set_docs_id.
  - replace (0 <? _) with true by lia.
    rewrite add_batches_healthy; try done; lia.
Qed.

(** ** [process_file] *)

Lemma chunk_content_nonempty cfg content : chunk_content cfg content <> [].
Proof. unfold chunk_content. by destruct (chunks _). Qed.

Lemma process_file_Some self t p records :
  process_file self t p = Some records ->
  exists content,
    read_text t p = ReadOk content
    /\ Py.strip content <> ""
    /\ records
       = imap (make_record p (length (chunk_content (config self) content)))
           (chunk_content (config self) content).
Proof.
  unfold process_file. destruct (read_text t p) as [content| |]; try done.
  destruct (Py.strip content) eqn:E; [done|].
  intros [= <-]. exists content. by rewrite E.
Qed.

Lemma process_file_nonempty self t p records :
  process_file self t p = Some records -> records <> [].
Proof.
  intros (content & _ & _ & ->)%process_file_Some.
  pose proof (chunk_content_nonempty (config self) content) as H.
  by destruct (chunk_content _ _).
Qed.

(** The records of a file carry its relative path as [source], and the ids
    [{source}_{i}] for [i] below the number of chunks, in order. *)
Lemma process_file_lookup self t p records i c :
  process_file self t p = Some records ->
  records !! i = Some c ->
  source (metadata c) = rel_str p
  /\ id c = make_id (rel_str p) i
  /\ chunk_index (metadata c) = i
  /\ total_chunks (metadata c) = length records.
Proof.
  intros (content & _ & _ & ->)%process_file_Some.
  rewrite list_lookup_imap, length_imap.
  destruct (_ !! i) as [chunk|]; [|done].
  by intros [= <-].
Qed.

Lemma process_file_source self t p records c :
  process_file self t p = Some records ->
  c ∈ records -> source (metadata c) = rel_str p.
Proof.
  intros Hp (i & Hi)%list_elem_of_lookup.
  by destruct (process_file_lookup _ _ _ _ _ _ Hp Hi).
Qed.

Lemma rows_of_records (records : list ChunkRecord) :
  rows_of (map document records) (map metadata records) (map id records)
  = map record_row records.
Proof.
  unfold rows_of. induction records as [|c records IH]; simpl; [done|].
  by rewrite IH.
Qed.

(** ** [CodeIndexerHandler.index_file] *)

Section IndexFile.

Variable fnmatch : string -> string -> bool.
Variable t : Tree.
Variable p : Path.

Lemma index_file_not_code h :
  is_code_file (processor h) t p = false ->
  index_file fnmatch t p h = (Return tt, set_stats incr_skipped h).
Proof. intros H. unfold index_file. unfold_monad. by rewrite H. Qed.

Lemma index_file_ignored h :
  is_code_file (processor h) t p = true ->
  should_ignore fnmatch (processor h) p = true ->
  index_file fnmatch t p h = (Return tt, set_stats incr_skipped h).
Proof. intros H1 H2. unfold index_file. unfold_monad. by rewrite H1, H2. Qed.

Lemma index_file_no_chunks h :
  qualifies fnmatch (processor h) t p = true ->
  process_file (processor h) t p = None ->
  index_file fnmatch t p h = (Return tt, h).
Proof.
  intros [H1 H2%negb_true_iff]%andb_true_iff Hp.
  unfold index_file. unfold_monad. by rewrite H1, H2, Hp.
Qed.

(** Past the gates and with chunks at hand, [index_file] calls
    [delete_by_source], then [add_documents] on whatever collection that
    left, and counts the file as indexed or, if the add raised, as an
    error. *)
Lemma index_file_indexing h records :
  qualifies fnmatch (processor h) t p = true ->
  process_file (processor h) t p = Some records ->
  let c1 := snd (delete_by_source (rel_str p) (collection h)) in
  let added :=
    add_documents (config (processor h)) (map document records)
      (map metadata records) (map id records) c1 in
  index_file fnmatch t p h
  = (Return tt,
     {| processor := processor h;
        stats := match fst added with
                 | Return _ => incr_indexed (stats h)
                 | Raise _ => incr_errors (stats h)
                 end;
        collection := snd added |}).
Proof.
  intros [H1 H2%negb_true_iff]%andb_true_iff Hp.
  pose proof (process_file_nonempty _ _ _ _ Hp) as Hne.
  unfold index_file. unfold_monad. rewrite H1, H2, Hp. simpl.
  destruct records as [|c records]; [done|].
  destruct (delete_by_source_returns (rel_str p) (collection h))
    as (n & c1 & ->). simpl.
  by destruct (add_documents _ _ _ _ c1) as [[[]|e] c2].
Qed.

(** The same on a collection without outages. *)
Lemma index_file_healthy h records :
  outages (collection h) = [] ->
  qualifies fnmatch (processor h) t p = true ->
  process_file (processor h) t p = Some records ->
  index_file fnmatch t p h
  = (Return tt,
     {| processor := processor h;
        stats := if Z.min (batch_size (config (processor h))) 50 =? 0
                 then incr_errors (stats h) else incr_indexed (stats h);
        collection :=
          set_docs
            (add_rows (on_duplicate (collection h))
               (without_source (rel_str p) (docs (collection h)))
               (sent_rows (config (processor h)) records))
            (collection h) |}).
Proof.
  intros Hc Hq Hp. rewrite (index_file_indexing h records Hq Hp).
  destruct (delete_by_source_healthy (rel_str p) _ Hc) as (n & ->). simpl.
  rewrite add_documents_healthy by (by rewrite ?length_map).
  unfold sent_rows. rewrite rows_of_records.
  destruct (_ =? 0) eqn:E0; simpl.
  - by replace (0 <? _) with false by lia.
  - done.
Qed.

End IndexFile.

(** ** Deleting the prior chunk set *)

(** ** Files that are not text *)

(** C6, as stated: a file that passes both gates and is not UTF-8 text is not
    counted as skipped. *)
Lemma undecodable_file_not_counted_as_skipped :
  read_text Sample.binary_tree ["blob.py"] = UnicodeDecodeError
  /\ skipped (stats (snd (index_file Sample.fnmatch Sample.binary_tree
                            ["blob.py"] Sample.empty_handler)))
     <> skipped (stats Sample.empty_handler) + 1.
Proof. split; [reflexivity|]. vm_compute. discriminate. Qed.

(** C6, amended: when a file cannot be decoded as text, [index_file] returns
    normally without any call to the collection and without counting an
    error. If the file passed both gates no counter changes at all (the
    handler is left exactly as it was: the file is not counted as skipped);
    the skipped counter goes up only when one of the two gates rejected the
    file. *)
Theorem index_file_undecodable fnmatch t p h :
  read_text t p = UnicodeDecodeError ->
  index_file fnmatch t p h
  = (Return tt,
     if qualifies fnmatch (processor h) t p then h
     else set_stats incr_skipped h)
  /\ collection (snd (index_file fnmatch t p h)) = collection h
  /\ errors (stats (snd (index_file fnmatch t p h))) = errors (stats h)
  /\ indexed (stats (snd (index_file fnmatch t p h))) = indexed (stats h).
Proof.
  intros Hread.
  assert (index_file fnmatch t p h
          = (Return tt,
             if qualifies fnmatch (processor h) t p then h
             else set_stats incr_skipped h)) as ->.
  { destruct (qualifies fnmatch (processor h) t p) eqn:Hq.
    - apply index_file_no_chunks; [done|].
      unfold process_file. by rewrite Hread.
    - unfold qualifies in Hq.
      destruct (is_code_file (processor h) t p) eqn:Hcode.
      + apply index_file_ignored; [done|].
        simpl in Hq. by apply negb_false_iff.
      + by apply index_file_not_code. }
  by destruct (qualifies _ _ _ _).
Qed.

Lemma index_file_undecodable_witness :
  index_file Sample.fnmatch Sample.binary_tree ["blob.py"] Sample.empty_handler
  = (Return tt, Sample.empty_handler).
Proof.
  apply (index_file_undecodable Sample.fnmatch Sample.binary_tree ["blob.py"]
           Sample.empty_handler).
  reflexivity.
Defined.

(** ** Exclusion rules *)

Lemma existsb_elements (f : string -> bool) (X : gset string) :
  existsb f (elements X) = true <-> exists x, x ∈ X /\ f x = true.
Proof.
  rewrite existsb_exists. split; intros (x & Hx & Hf); exists x; split;
    try done; by apply elem_of_elements, list_elem_of_In + apply list_elem_of_In, elem_of_elements.
Qed.

Section Exclusion.

Variable fnmatch : string -> string -> bool.
Variable self : CodeProcessor.
Variable p : Path.

Lemma exclude_dir_check :
  existsb (dir_excludes (rel_str p)) (elements (exclude_dirs (config self)))
  = true
  <-> matches_exclude_dir (config self) p.
Proof. apply existsb_elements. Qed.

Lemma exclude_file_check :
  existsb (file_excludes fnmatch p) (elements (exclude_files (config self)))
  = true
  <-> matches_exclude_file fnmatch (config self) p.
Proof.
  rewrite existsb_elements. unfold matches_exclude_file, file_excludes.
  split; intros (x & Hx & Hf); exists x; split; try done.
  - by apply orb_true_iff.
  - by apply orb_true_iff.
Qed.

Lemma hidden_check :
  ignore_hidden (config self) && Py.startswith (name p) "." = true
  <-> matches_hidden (config self) p.
Proof. unfold matches_hidden. by rewrite andb_true_iff. Qed.

Lemma gitignore_check :
  existsb (gitignore_excludes (abs_str (config self) p)) (gitignore_rules self)
  = true
  <-> matches_gitignore self p.
Proof.
  rewrite existsb_exists. unfold matches_gitignore, gitignore_excludes.
  split.
  - intros ([dir matcher] & Hin & H). simpl in H.
    apply andb_true_iff in H as [Hdir Hm].
    exists dir, matcher. split; [by apply list_elem_of_In|]. split; [done|].
    by destruct (matcher _) as [[]|].
  - intros (dir & matcher & Hin & Hdir & Hm).
    exists (dir, matcher). split; [by apply list_elem_of_In|]. simpl.
    by rewrite Hdir, Hm.
Qed.

End Exclusion.

(** C4: the extension allow-list is the first gate of [index_file]: a path
    whose lower-cased suffix is not in [file_extensions] is counted as skipped
    and nothing else happens, whatever the exclusion rules say. The deny
    checks of [should_ignore] fire in the order excluded directories, excluded
    file patterns (tried on the bare name and on the relative path), hidden
    files, [.gitignore] rules: each family answers only when the ones before
    it did not match, and the path is ignored exactly when some family
    matches. *)
Theorem exclusion_precedence fnmatch :
  (forall t p h,
     Py.lower (suffix p) ∉ file_extensions (config (processor h)) ->
     index_file fnmatch t p h = (Return tt, set_stats incr_skipped h))
  /\ (forall self p,
        let by_dir := matches_exclude_dir (config self) p in
        let by_file := matches_exclude_file fnmatch (config self) p in
        let by_hidden := matches_hidden (config self) p in
        let by_gitignore := matches_gitignore self p in
        (ignore_rule fnmatch self p = Some ByExcludeDir <-> by_dir)
        /\ (ignore_rule fnmatch self p = Some ByExcludeFile
            <-> ¬ by_dir /\ by_file)
        /\ (ignore_rule fnmatch self p = Some ByHidden
            <-> ¬ by_dir /\ ¬ by_file /\ by_hidden)
        /\ (ignore_rule fnmatch self p = Some ByGitignore
            <-> ¬ by_dir /\ ¬ by_file /\ ¬ by_hidden /\ by_gitignore)
        /\ (should_ignore fnmatch self p = true
            <-> by_dir \/ by_file \/ by_hidden \/ by_gitignore)).
Proof.
  split.
  - intros t p h Hext. apply index_file_not_code.
    unfold is_code_file. destruct (negb _); [done|].
    by apply bool_decide_eq_false_2.
  - intros self p by_dir by_file by_hidden by_gitignore.
    pose proof (exclude_dir_check self p) as H1.
    pose proof (exclude_file_check fnmatch self p) as H2.
    pose proof (hidden_check self p) as H3.
    pose proof (gitignore_check self p) as H4.
    fold by_dir in H1. fold by_file in H2.
    fold by_hidden in H3. fold by_gitignore in H4.
    unfold should_ignore, ignore_rule.
    destruct (existsb (dir_excludes _) _);
      destruct (existsb (file_excludes _ _) _);
      destruct (ignore_hidden _ && _);
      destruct (existsb (gitignore_excludes _) _);
      intuition (try discriminate; try congruence).
Qed.

Lemma exclusion_precedence_witness :
  index_file Sample.fnmatch Sample.exe_tree ["tool.exe"] Sample.empty_handler
  = (Return tt, set_stats incr_skipped Sample.empty_handler).
Proof.
  apply (proj1 (exclusion_precedence Sample.fnmatch)).
  by vm_compute.
Defined.

(** The cases of [test_gitignore_respect] and [test_exclude_dirs_config] that
    the configuration alone decides. *)
Example ignore_rule_samples :
  ignore_rule Sample.fnmatch Sample.default_processor ["dist"; "output.exe"]
  = Some ByExcludeDir
  /\ ignore_rule Sample.fnmatch Sample.default_processor
       ["node_modules"; "dummy.txt"] = Some ByExcludeDir
  /\ ignore_rule Sample.fnmatch Sample.default_processor
       ["frontend"; ".next"; "cache.txt"] = Some ByExcludeDir
  /\ ignore_rule Sample.fnmatch Sample.default_processor ["src"; "x.pyc"]
     = Some ByExcludeFile
  /\ ignore_rule Sample.fnmatch Sample.default_processor ["src"; ".env.py"]
     = Some ByHidden
  /\ ignore_rule Sample.fnmatch Sample.default_processor ["main.go"] = None.
Proof. by vm_compute. Qed.

(** ** Re-indexing *)

Lemma without_source_clean src (m : gmap string Row) k v :
  without_source src m !! k = Some v -> source (snd v) <> src.
Proof.
  rewrite lookup_without_source.
  destruct (m !! k) as [w|]; [|done].
  case_decide; [done|]. by intros [= <-].
Qed.

(** Deleting a source and adding its rows again gives the same collection,
    whichever way the collection treats a known id. *)
Lemma reindex_stable pol src (m : gmap string Row) rows :
  (forall k v, (k, v) ∈ rows -> source (snd v) = src) ->
  add_rows pol (without_source src (add_rows pol (without_source src m) rows))
    rows
  = add_rows pol (without_source src m) rows.
Proof.
  intros Hrows. apply map_eq. intros k.
  rewrite !lookup_add_rows, lookup_without_source, lookup_add_rows.
  pose proof (without_source_clean src m k) as Hclean.
  destruct (without_source src m !! k) as [v|] eqn:Hx.
  - specialize (Hclean v eq_refl).
    destruct pol.
    + rewrite settle_keep. case_decide; [done|]. apply settle_keep.
    + destruct (decide (k ∈ rows.*1)) as [Hin|Hout].
      * by apply settle_overwrite.
      * rewrite !(settle_absent _ _ _ _ Hout).
        by case_decide.
  - destruct pol.
    + match goal with
      | |- settle _ _ (match ?y with _ => _ end) _ = ?z =>
          change z with y; destruct y as [v|] eqn:Hy; [|done]
      end.
      destruct (settle_origin _ _ _ _ _ Hy) as [|Hin]; [done|].
      rewrite (Hrows _ _ Hin). by case_decide.
    + destruct (decide (k ∈ rows.*1)) as [Hin|Hout].
      * by apply settle_overwrite.
      * by rewrite !(settle_absent _ _ _ _ Hout).
Qed.

(** After delete-then-add every row of the source is one of the rows just
    added. *)
Lemma reindex_no_stale pol src (m : gmap string Row) rows k v :
  add_rows pol (without_source src m) rows !! k = Some v ->
  source (snd v) = src ->
  (k, v) ∈ rows.
Proof.
  rewrite lookup_add_rows. intros [Hold|Hnew]%settle_origin Hsrc; [|done].
  by apply without_source_clean in Hold.
Qed.

Lemma add_rows_present pol (m : gmap string Row) rows k v :
  (k, v) ∈ rows -> is_Some (add_rows pol m rows !! k).
Proof.
  intros Hin. rewrite lookup_add_rows. apply settle_is_Some. right.
  apply elem_of_keys. by exists v.
Qed.

Lemma sent_rows_source self t p records k v :
  process_file self t p = Some records ->
  (k, v) ∈ sent_rows (config self) records ->
  source (snd v) = rel_str p /\ exists c, c ∈ records /\ (k, v) = record_row c.
Proof.
  intros Hp. unfold sent_rows.
  destruct (0 <? _); [|by intros ?%elem_of_nil].
  intros (c & Heq & Hc)%list_elem_of_fmap.
  split; [|by exists c].
  injection Heq as -> ->. simpl. by eapply process_file_source.
Qed.

(** ** [FileWatcher.initial_index] *)

Section InitialIndex.

Variable fnmatch : string -> string -> bool.
Variable t : Tree.
Variable p : Path.

(** A file that fails a gate is passed over without touching the counters. *)
Lemma initial_index_file_rejected h n :
  qualifies fnmatch (processor h) t p = false ->
  initial_index_file fnmatch t p n h = (Return n, h).
Proof.
  unfold qualifies, initial_index_file. unfold_monad.
  destruct (is_code_file _ _ _); simpl; [|done].
  by intros ->%negb_false_iff.
Qed.

(** For a file with chunks the walk calls [add_documents] on the collection
    as it is, with no [delete_by_source] before it; it leaves the counters
    alone and lets an exception of the add escape. *)
Lemma initial_index_file_indexing h n records :
  qualifies fnmatch (processor h) t p = true ->
  process_file (processor h) t p = Some records ->
  let added :=
    add_documents (config (processor h)) (map document records)
      (map metadata records) (map id records) (collection h) in
  initial_index_file fnmatch t p n h
  = (match fst added with
     | Return _ => Return (n + 1)
     | Raise e => Raise e
     end,
     set_collection (snd added) h).
Proof.
  intros [H1 H2%negb_true_iff]%andb_true_iff Hp.
  pose proof (process_file_nonempty _ _ _ _ Hp) as Hne.
  unfold initial_index_file. unfold_monad. rewrite H1, H2, Hp. simpl.
  destruct records as [|c records]; [done|].
  by destruct (add_documents _ _ _ _ (collection h)) as [[[]|e] c2].
Qed.

End InitialIndex.

(** C1, at a file whose earlier version had two chunks and whose current
    version has one: [index_file] removes the leftover row [a.py_1] and counts
    the file as indexed; [initial_index] keeps the leftover row and leaves the
    [indexed] counter at zero while reporting one file. *)
Theorem initial_index_diverges_from_index_file :
  let via_event :=
    index_file Sample.fnmatch Sample.one_file_tree ["a.py"]
      Sample.stale_handler in
  let via_walk :=
    initial_index Sample.fnmatch Sample.one_file_tree Sample.stale_handler in
  fst via_event = Return tt
  /\ fst via_walk = Return 1
  /\ docs (collection (snd via_event)) !! "a.py_1" = None
  /\ docs (collection (snd via_walk)) !! "a.py_1" = Some Sample.stale_row
  /\ is_Some (docs (collection (snd via_event)) !! "a.py_0")
  /\ is_Some (docs (collection (snd via_walk)) !! "a.py_0")
  /\ indexed (stats (snd via_event)) = 1
  /\ indexed (stats (snd via_walk)) = 0.
Proof. vm_compute. repeat split; eauto. Qed.

(** ** [OllamaEmbeddingFunction.__call__] *)

(** C7, as stated: with a model of dimension 1024 the fallback vector of a
    failed text does not have the model's dimension. *)
Lemma fallback_dimension_mismatch :
  has_dimension sample_post 1024
  /\ ¬ Forall (fun v => length v = 1024%nat)
         (Ollama.call Z 0 sample_post ["ok"; "bad"]).
Proof.
  split.
  - intros text e. unfold Ollama.try_embed, sample_post.
    destruct (String.eqb _ "bad"); [done|].
    change (negb (200 =? 200)) with false. cbv iota.
    intros [= <-]. by vm_compute.
  - intros H. apply (Forall_lookup_1 _ _ 1%nat (Ollama.fallback Z 0)) in H;
      [|reflexivity].
    vm_compute in H. discriminate.
Qed.

(** C7, amended: [__call__] returns one vector per input text, in order: the
    model's embedding where the request succeeded, and where anything in the
    request failed a vector of 768 zeros, 768 being a constant of the code and
    not the dimension of the configured model. *)
Theorem call_one_embedding_per_text (num : Type) (zero : num)
  (post : string -> Ollama.HttpOutcome num) (texts : list string) :
  length (Ollama.call num zero post texts) = length texts
  /\ (forall i text,
        texts !! i = Some text ->
        Ollama.try_embed num post text = None ->
        Ollama.call num zero post texts !! i = Some (repeat zero 768))
  /\ (forall i text e,
        texts !! i = Some text ->
        Ollama.try_embed num post text = Some e ->
        Ollama.call num zero post texts !! i = Some e).
Proof.
  unfold Ollama.call. split; [apply length_map|].
  split.
  - intros i text Hi He. rewrite list_lookup_fmap, Hi. simpl. by rewrite He.
  - intros i text e Hi He. rewrite list_lookup_fmap, Hi. simpl. by rewrite He.
Qed.

Lemma call_one_embedding_per_text_witness :
  Ollama.call Z 0 sample_post ["ok"; "bad"] !! 1%nat = Some (repeat 0 768).
Proof.
  apply (proj1 (proj2 (call_one_embedding_per_text Z 0 sample_post
                         ["ok"; "bad"])) 1%nat "bad");
    reflexivity.
Defined.

(** * Further properties *)

(** ** More on strings *)

Lemma append_cons x (a b : string) : String x a +:+ b = String x (a +:+ b).
Proof. reflexivity. Qed.

Lemma append_nil_l (a : string) : "" +:+ a = a.
Proof. reflexivity. Qed.

Lemma append_assoc (a b c : string) : (a +:+ b) +:+ c = a +:+ (b +:+ c).
Proof.
  induction a as [|x a IH]; [done|]. by rewrite !append_cons, IH.
Qed.

Lemma append_nil_r (a : string) : a +:+ "" = a.
Proof. induction a as [|x a IH]; [done|]. by rewrite append_cons, IH. Qed.

Lemma str_length_take n s :
  String.length (Py.take n s) = Nat.min n (String.length s).
Proof.
  revert s. induction n as [|n IH]; intros [|c r]; simpl; by rewrite ?IH.
Qed.

Lemma str_length_drop n s :
  String.length (Py.drop n s) = (String.length s - n)%nat.
Proof.
  revert s. induction n as [|n IH]; intros [|c r]; simpl; by rewrite ?IH.
Qed.

Lemma take_all n s : (String.length s <= n)%nat -> Py.take n s = s.
Proof.
  revert s. induction n as [|n IH]; intros [|c r]; simpl; try done; try lia.
  intros H. rewrite IH; [done|lia].
Qed.

Lemma len_slice s i j :
  Py.len (Py.slice s i j)
  = Z.max 0 (Py.clamp_index (Py.len s) j - Py.clamp_index (Py.len s) i).
Proof.
  unfold Py.slice, Py.len. rewrite str_length_take, str_length_drop.
  unfold Py.clamp_index.
  destruct (i <? 0) eqn:Hi; destruct (j <? 0) eqn:Hj; lia.
Qed.

(** A slice with bounds [0 <= i] and [0 <= j] has at most [j - i]
    characters. *)
Lemma len_slice_le s i j :
  0 <= i -> 0 <= j -> Py.len (Py.slice s i j) <= Z.max 0 (j - i).
Proof.
  intros Hi Hj. rewrite len_slice. unfold Py.clamp_index, Py.len.
  destruct (i <? 0) eqn:Ei; destruct (j <? 0) eqn:Ej; lia.
Qed.

Lemma slice_to_all s k : Py.len s <= k -> Py.slice_to s k = s.
Proof.
  intros H. unfold Py.slice_to, Py.slice, Py.clamp_index, Py.len in *. simpl.
  destruct (k <? 0) eqn:Ek; [lia|].
  rewrite Z.min_r by lia. rewrite Z.min_l by lia. simpl.
  apply take_all. lia.
Qed.

Lemma length_lstrip_le s :
  (String.length (Py.lstrip s) <= String.length s)%nat.
Proof.
  induction s as [|c r IH]; simpl; [done|].
  destruct (Py.is_space c); simpl; lia.
Qed.

Lemma length_rstrip_le s :
  (String.length (Py.rstrip s) <= String.length s)%nat.
Proof.
  induction s as [|c r IH]; simpl; [done|].
  destruct (Py.rstrip r) eqn:E.
  - destruct (Py.is_space c); simpl; lia.
  - simpl in *. lia.
Qed.

(** Trimming never lengthens a string. *)
Lemma len_strip_le s : Py.len (Py.strip s) <= Py.len s.
Proof.
  unfold Py.strip, Py.len.
  pose proof (length_lstrip_le (Py.rstrip s)).
  pose proof (length_rstrip_le s). lia.
Qed.

(** What [rfind_scan] returns, for the part [s] of a string that starts at
    position [pos]: the last match inside the bounds, or [found] when there is
    none. *)
Lemma rfind_scan_spec c lo hi s : forall pos found,
  let r := Py.rfind_scan c s pos lo hi found in
  (r = found
   /\ forall k, (k < String.length s)%nat ->
                lo <= pos + Z.of_nat k < hi -> String.get k s <> Some c)
  \/ (exists k, (k < String.length s)%nat
                /\ r = pos + Z.of_nat k
                /\ lo <= r < hi
                /\ String.get k s = Some c
                /\ forall k', (k < k' < String.length s)%nat ->
                              lo <= pos + Z.of_nat k' < hi ->
                              String.get k' s <> Some c).
Proof.
  induction s as [|x s IH]; intros pos found r.
  - left. split; [done|]. simpl. lia.
  - subst r. simpl.
    destruct (Ascii.eqb x c && (lo <=? pos) && (pos <? hi)) eqn:E.
    + destruct (IH (pos + 1) pos)
        as [[Hr Hnone]|(k & Hk & Hr & Hb & Hget & Hlast)].
      * right. exists 0%nat.
        apply andb_true_iff in E as [[Ex E1]%andb_true_iff E2].
        apply Ascii.eqb_eq in Ex. subst x.
        rewrite Hr. repeat split; try lia; simpl.
        intros [|k'] Hk' Hb'; [lia|]. simpl.
        apply Hnone; lia.
      * right. exists (S k). simpl.
        repeat split; try lia; [done|].
        intros [|k'] Hk' Hb'; [lia|]. simpl. apply Hlast; lia.
    + destruct (IH (pos + 1) found)
        as [[Hr Hnone]|(k & Hk & Hr & Hb & Hget & Hlast)].
      * left. split; [done|].
        intros [|k] Hk Hb; simpl.
        -- intros [= ->]. rewrite Ascii.eqb_refl in E. simpl in E. lia.
        -- apply Hnone; lia.
      * right. exists (S k). simpl.
        repeat split; try lia; [done|].
        intros [|k'] Hk' Hb'; [lia|]. simpl. apply Hlast; lia.
Qed.

(** [rfind] returns [-1] or a position inside the adjusted bounds. *)
Lemma rfind_bounds s c i j :
  Py.rfind s c i j = -1
  \/ Py.clamp_index (Py.len s) i <= Py.rfind s c i j
     < Py.clamp_index (Py.len s) j.
Proof.
  unfold Py.rfind.
  destruct (rfind_scan_spec c (Py.clamp_index (Py.len s) i)
              (Py.clamp_index (Py.len s) j) s 0 (-1))
    as [[Hr _]|(k & _ & _ & Hb & _)]; [by left|by right].
Qed.

Lemma clamp_index_range n i : 0 <= n -> 0 <= Py.clamp_index n i <= n.
Proof. intros Hn. unfold Py.clamp_index. destruct (i <? 0) eqn:E; lia. Qed.

(** [rfind] returns the last position of [c] inside the adjusted bounds, and
    [-1] exactly when there is none. *)
Lemma rfind_spec s c i j :
  let lo := Py.clamp_index (Py.len s) i in
  let hi := Py.clamp_index (Py.len s) j in
  let r := Py.rfind s c i j in
  (r = -1
   /\ forall k, lo <= k < hi -> String.get (Z.to_nat k) s <> Some c)
  \/ (lo <= r < hi
      /\ String.get (Z.to_nat r) s = Some c
      /\ forall k, r < k < hi -> String.get (Z.to_nat k) s <> Some c).
Proof.
  intros lo hi r.
  pose proof (len_nonneg s) as Hn.
  pose proof (clamp_index_range (Py.len s) i Hn) as Hlo.
  pose proof (clamp_index_range (Py.len s) j Hn) as Hhi.
  fold lo in Hlo. fold hi in Hhi.
  destruct (rfind_scan_spec c lo hi s 0 (-1))
    as [[Hr Hnone]|(k & Hk & Hr & Hb & Hget & Hlast)].
  - left. split; [exact Hr|].
    intros k Hk. replace k with (0 + Z.of_nat (Z.to_nat k)) in Hk by lia.
    apply Hnone; unfold Py.len in *; lia.
  - right. change (Py.rfind_scan c s 0 lo hi (-1)) with r in Hr, Hb.
    split; [done|]. split.
    + rewrite Hr. by rewrite Z.add_0_l, Nat2Z.id.
    + intros k' Hk'. apply Hlast; unfold Py.len in *; lia.
Qed.

Lemma Forall_filter_keeps {A} (P Q : A -> Prop) `{!forall x, Decision (P x)}
  (l : list A) :
  Forall Q l -> Forall Q (filter P l).
Proof.
  induction 1 as [|x l Hx _ IH]; [constructor|].
  rewrite filter_cons. case_decide; [by constructor|done].
Qed.

(** ** More on the chunking loop *)

Section ChunkBounds.

Variable cfg : Config.
Variable content : string.
Hypothesis chunk_size_nonneg : 0 <= chunk_size cfg.

(** A window ends at or after its start, at most [chunk_size] characters
    later, and inside the content. *)
Lemma window_end_range s :
  0 <= s < Py.len content ->
  s <= window_end cfg content s <= s + chunk_size cfg
  /\ window_end cfg content s <= Py.len content.
Proof.
  intros Hs. unfold window_end.
  set (e0 := Z.min (s + chunk_size cfg) (Py.len content)).
  destruct (e0 <? Py.len content) eqn:He; [|lia].
  destruct (Py.rfind content Py.newline s e0 >? s) eqn:Hp; [|lia].
  destruct (rfind_bounds content Py.newline s e0) as [Hr|Hr]; [lia|].
  unfold Py.clamp_index in Hr.
  destruct (s <? 0) eqn:E1; destruct (e0 <? 0) eqn:E2; lia.
Qed.

Lemma next_start_nonneg s e : 0 <= s -> s <= e -> 0 <= next_start cfg s e.
Proof.
  intros Hs He. unfold next_start. destruct (_ <=? s) eqn:E; lia.
Qed.

Lemma window_texts_bounded fuel : forall st,
  0 <= start st ->
  Forall (fun c => Py.len c <= chunk_size cfg)
         (window_texts fuel cfg content st).
Proof.
  induction fuel as [|fuel IH]; intros st Hst; simpl; [constructor|].
  destruct (start st <? Py.len content) eqn:Hcond; simpl; [|constructor].
  destruct (_ =? _); [constructor|].
  apply Z.ltb_lt in Hcond.
  destruct (window_end_range (start st) ltac:(lia)) as [He Hlen].
  constructor.
  - etrans; [apply len_strip_le|].
    etrans; [apply len_slice_le; lia|]. lia.
  - destruct (_ >? _); [constructor|].
    apply IH. simpl. apply next_start_nonneg; lia.
Qed.

End ChunkBounds.

(** X1: with a non-negative [chunk_size], no chunk [chunk_content] returns is
    longer than [chunk_size] characters, the fallback chunk included. *)
Theorem chunk_content_length_bound cfg content :
  0 <= chunk_size cfg ->
  Forall (fun c => Py.len c <= chunk_size cfg) (chunk_content cfg content).
Proof.
  intros Hcs. unfold chunk_content.
  destruct (chunks (fst (run_loop cfg content))) as [|c cs] eqn:E.
  - constructor; [|constructor].
    etrans; [apply len_slice_le; lia|]. lia.
  - rewrite <- E. unfold run_loop. rewrite chunk_loop_chunks.
    change (chunks loop_init) with (@nil string). rewrite app_nil_l.
    apply Forall_filter_keeps, window_texts_bounded; simpl; lia.
Qed.

Lemma chunk_content_length_bound_witness :
  Forall (fun c => Py.len c <= 100)
    (chunk_content Sample.basic_config (Sample.repeat_char "a" 250)).
Proof.
  apply (chunk_content_length_bound Sample.basic_config
           (Sample.repeat_char "a" 250)).
  simpl. lia.
Defined.

(** X2: where a window ends. The last window (the one that reaches the end of
    the content) is never shortened. Any other window ends right after the
    last newline that lies after its first character, when there is one, and
    at [start + chunk_size] when there is none; a newline at the window's
    first character does not count. *)
Theorem window_end_snaps_to_last_newline cfg content s :
  0 <= s -> 0 <= chunk_size cfg ->
  let e := window_end cfg content s in
  (Py.len content <= s + chunk_size cfg -> e = Py.len content)
  /\ (s + chunk_size cfg < Py.len content ->
      (e = s + chunk_size cfg
       /\ forall i, s < i < s + chunk_size cfg ->
                    String.get (Z.to_nat i) content <> Some Py.newline)
      \/ (s + 1 < e <= s + chunk_size cfg
          /\ String.get (Z.to_nat (e - 1)) content = Some Py.newline
          /\ forall i, e <= i < s + chunk_size cfg ->
                       String.get (Z.to_nat i) content <> Some Py.newline)).
Proof.
  intros Hs Hcs e. subst e. unfold window_end.
  pose proof (len_nonneg content) as Hn.
  split.
  - intros Hlast. rewrite Z.min_r by lia.
    by rewrite Z.ltb_irrefl.
  - intros Hmid. rewrite Z.min_l by lia.
    replace (s + chunk_size cfg <? Py.len content) with true by lia.
    destruct (rfind_spec content Py.newline s (s + chunk_size cfg))
      as [[Hr Hnone]|(Hb & Hget & Hafter)];
      unfold Py.clamp_index in *;
      replace (s <? 0) with false in * by lia;
      replace (s + chunk_size cfg <? 0) with false in * by lia;
      rewrite Z.min_l in * by lia.
    + rewrite Hr. replace (-1 >? s) with false by lia.
      left. split; [done|]. intros i Hi. apply Hnone. lia.
    + destruct (_ >? s) eqn:Hp.
      * right. split; [lia|]. split.
        -- by replace (Py.rfind content Py.newline s (s + chunk_size cfg)
                       + 1 - 1)
             with (Py.rfind content Py.newline s (s + chunk_size cfg)) by lia.
        -- intros i Hi. apply Hafter. lia.
      * left. split; [done|]. intros i Hi. apply Hafter. lia.
Qed.

Lemma window_end_snaps_to_last_newline_witness :
  window_end Sample.basic_config (Sample.repeat_char "a" 250) 160 = 250.
Proof.
  apply (proj1 (window_end_snaps_to_last_newline Sample.basic_config
                  (Sample.repeat_char "a" 250) 160 ltac:(lia)
                  ltac:(simpl; lia))).
  vm_compute. discriminate.
Defined.

(** ** Chunk ids *)

Lemma string_of_uint_no_underscore d :
  Py.contains (NilEmpty.string_of_uint d) "_" = false.
Proof. induction d; simpl; by rewrite ?IHd. Qed.

Lemma startswith_nil s : Py.startswith s "" = true.
Proof. by destruct s. Qed.

Lemma contains_underscore_app a b :
  Py.contains (a +:+ "_" +:+ b) "_" = true.
Proof.
  induction a as [|x a IH].
  - rewrite append_nil_l, append_cons. simpl. by rewrite startswith_nil.
  - rewrite append_cons. simpl. rewrite IH. apply orb_true_r.
Qed.

Lemma str_of_nat_inj i j : Py.str_of_nat i = Py.str_of_nat j -> i = j.
Proof.
  unfold Py.str_of_nat. intros H.
  apply Unsigned.to_uint_inj.
  pose proof (NilEmpty.usu (Nat.to_uint i)) as Hi.
  pose proof (NilEmpty.usu (Nat.to_uint j)) as Hj.
  rewrite H in Hi. congruence.
Qed.

(** A string is split in one way only at its last underscore. *)
Lemma split_at_last_underscore a : forall a' d d',
  Py.contains d "_" = false -> Py.contains d' "_" = false ->
  a +:+ "_" +:+ d = a' +:+ "_" +:+ d' ->
  a = a' /\ d = d'.
Proof.
  induction a as [|x a IH]; intros [|x' a'] d d' Hd Hd' Heq.
  - split; [done|]. by injection Heq.
  - assert (d = a' +:+ "_" +:+ d') as -> by (by injection Heq).
    by rewrite contains_underscore_app in Hd.
  - assert (a +:+ "_" +:+ d = d') as <- by (by injection Heq).
    by rewrite contains_underscore_app in Hd'.
  - rewrite !append_cons in Heq. injection Heq as -> Heq.
    destruct (IH _ _ _ Hd Hd' Heq) as [-> ->]. done.
Qed.

(** X3: chunk ids are injective: two ids [{source}_{i}] are equal only for
    the same source and the same index, so the records of one file have
    pairwise different ids and never share an id with a record of another
    file. *)
Theorem make_id_injective :
  (forall src src' i j,
     make_id src i = make_id src' j -> src = src' /\ i = j)
  /\ (forall self t p records,
        process_file self t p = Some records -> NoDup (map id records))
  /\ (forall self t p p' records records' c c',
        process_file self t p = Some records ->
        process_file self t p' = Some records' ->
        c ∈ records -> c' ∈ records' ->
        id c = id c' -> rel_str p = rel_str p').
Proof.
  assert (forall src src' i j,
            make_id src i = make_id src' j -> src = src' /\ i = j) as Hinj.
  { intros src src' i j Heq. unfold make_id in Heq.
    apply split_at_last_underscore in Heq as [-> Heq];
      try apply string_of_uint_no_underscore.
    split; [done|]. by apply str_of_nat_inj. }
  split; [exact Hinj|]. split.
  - intros self t p records Hp.
    apply NoDup_alt. intros i j k.
    rewrite !list_lookup_fmap.
    destruct (records !! i) as [ci|] eqn:Hi; [|done].
    destruct (records !! j) as [cj|] eqn:Hj; [|done].
    simpl. intros [= <-] [= Heq].
    destruct (process_file_lookup _ _ _ _ _ _ Hp Hi) as (_ & Hidi & _).
    destruct (process_file_lookup _ _ _ _ _ _ Hp Hj) as (_ & Hidj & _).
    rewrite Hidi, Hidj in Heq. by destruct (Hinj _ _ _ _ Heq).
  - intros self t p p' records records' c c' Hp Hp'
      (i & Hi)%list_elem_of_lookup (j & Hj)%list_elem_of_lookup Heq.
    destruct (process_file_lookup _ _ _ _ _ _ Hp Hi) as (_ & Hidi & _).
    destruct (process_file_lookup _ _ _ _ _ _ Hp' Hj) as (_ & Hidj & _).
    rewrite Hidi, Hidj in Heq. by destruct (Hinj _ _ _ _ Heq).
Qed.

Lemma make_id_injective_witness :
  NoDup (map id (default [] (process_file Sample.default_processor
                               Sample.one_file_tree ["a.py"]))).
Proof.
  apply (proj1 (proj2 make_id_injective) Sample.default_processor
           Sample.one_file_tree ["a.py"]).
  reflexivity.
Defined.

(** ** Re-indexing, row by row *)

Lemma make_id_inj src src' i j :
  make_id src i = make_id src' j -> src = src' /\ i = j.
Proof.
  unfold make_id. intros Heq.
  apply split_at_last_underscore in Heq as [-> Heq];
    try apply string_of_uint_no_underscore.
  split; [done|]. by apply str_of_nat_inj.
Qed.

Lemma process_file_ids_NoDup self t p records :
  process_file self t p = Some records -> NoDup (map id records).
Proof.
  intros Hp. apply NoDup_alt. intros i j k.
  rewrite !list_lookup_fmap.
  destruct (records !! i) as [ci|] eqn:Hi; [|done].
  destruct (records !! j) as [cj|] eqn:Hj; [|done].
  simpl. intros [= <-] [= Heq].
  destruct (process_file_lookup _ _ _ _ _ _ Hp Hi) as (_ & Hidi & _).
  destruct (process_file_lookup _ _ _ _ _ _ Hp Hj) as (_ & Hidj & _).
  rewrite Hidi, Hidj in Heq. by destruct (make_id_inj _ _ _ _ Heq).
Qed.

Lemma record_row_keys (records : list ChunkRecord) :
  (map record_row records).*1 = map id records.
Proof. induction records as [|c records IH]; simpl; [done|by f_equal]. Qed.

(** Among rows with pairwise different ids, the row sent under [k] is the one
    stored, unless the collection keeps an entry it already had. *)
Lemma settle_fresh pol k v rs : forall init,
  NoDup rs.*1 -> (k, v) ∈ rs -> pol = Overwrite \/ init = None ->
  settle pol k init rs = Some v.
Proof.
  induction rs as [|[k' v'] rs IH]; intros init Hnd Hin Hpol.
  - by apply elem_of_nil in Hin.
  - apply NoDup_cons in Hnd as [Hk' Hnd].
    change (settle pol k init ((k', v') :: rs))
      with (settle pol k (settle_step pol k init (k', v')) rs).
    apply elem_of_cons in Hin as [[= <- <-]|Hin].
    + rewrite settle_absent by done.
      unfold settle_step. simpl. rewrite decide_True by done.
      by destruct Hpol as [-> | ->]; [destruct init|destruct pol].
    + assert (k' <> k) as Hne.
      { intros ->. apply Hk'. apply elem_of_keys. by exists v. }
      unfold settle_step at 1. simpl. rewrite decide_False by done.
      by apply IH.
Qed.

(** The row of record [i] of a file is stored under [{source}_{i}]. *)
Lemma record_row_stored pol (m : gmap string Row) self t p records i c :
  process_file self t p = Some records ->
  records !! i = Some c ->
  pol = Overwrite \/ m !! make_id (rel_str p) i = None ->
  add_rows pol m (map record_row records) !! make_id (rel_str p) i
  = Some (document c, metadata c).
Proof.
  intros Hp Hi Hfree.
  destruct (process_file_lookup _ _ _ _ _ _ Hp Hi) as (_ & Hid & _).
  rewrite lookup_add_rows. apply settle_fresh.
  - rewrite record_row_keys. by eapply process_file_ids_NoDup.
  - apply list_elem_of_fmap. exists c. split.
    + unfold record_row. by rewrite Hid.
    + by eapply list_elem_of_lookup_2.
  - done.
Qed.

Lemma sent_rows_positive cfg records :
  0 < batch_size cfg -> sent_rows cfg records = map record_row records.
Proof. intros H. unfold sent_rows. by replace (0 <? _) with true by lia. Qed.

Lemma without_source_free src (m : gmap string Row) k :
  (forall row, m !! k = Some row -> source (snd row) = src) ->
  without_source src m !! k = None.
Proof.
  intros H. rewrite lookup_without_source.
  destruct (m !! k) as [v|]; [|done].
  by rewrite decide_True by (by apply H).
Qed.

(** What a successful [index_file] leaves in a collection whose calls
    succeed. *)
Lemma index_file_healthy_rows fnmatch t p h records :
  outages (collection h) = [] ->
  qualifies fnmatch (processor h) t p = true ->
  process_file (processor h) t p = Some records ->
  let h1 := snd (index_file fnmatch t p h) in
  (forall k row,
     docs (collection h1) !! k = Some row ->
     (source (snd row) <> rel_str p
      /\ docs (collection h) !! k = Some row)
     \/ exists i c,
          records !! i = Some c
          /\ k = rel_str p +:+ "_" +:+ Py.str_of_nat i
          /\ row = (document c, metadata c))
  /\ (0 < batch_size (config (processor h)) ->
      stats h1 = incr_indexed (stats h)
      /\ forall i c,
           records !! i = Some c ->
           id c = rel_str p +:+ "_" +:+ Py.str_of_nat i
           /\ (on_duplicate (collection h) = Overwrite
               \/ (forall row,
                     docs (collection h) !! id c = Some row ->
                     source (snd row) = rel_str p) ->
               docs (collection h1) !! id c
               = Some (document c, metadata c))).
Proof.
  intros Hc Hq Hp h1.
  pose proof (index_file_healthy fnmatch t p h records Hc Hq Hp) as E1.
  assert (docs (collection h1)
          = add_rows (on_duplicate (collection h))
              (without_source (rel_str p) (docs (collection h)))
              (sent_rows (config (processor h)) records)) as Hdocs1
    by (subst h1; by rewrite E1).
  split.
  - intros k row Hrow. rewrite Hdocs1, lookup_add_rows in Hrow.
    apply settle_origin in Hrow as [Hold|Hnew].
    + left. split; [by eapply without_source_clean|].
      rewrite lookup_without_source in Hold.
      destruct (docs (collection h) !! k) as [v|]; [|done].
      by case_decide.
    + right.
      destruct (sent_rows_source _ _ _ _ _ _ Hp Hnew)
        as (_ & c & Hcin & [= -> ->]).
      apply list_elem_of_lookup in Hcin as [i Hi].
      exists i, c. split; [done|]. split; [|done].
      by destruct (process_file_lookup _ _ _ _ _ _ Hp Hi) as (_ & ? & _).
  - intros Hbs. split.
    + subst h1. rewrite E1. simpl.
      by replace (Z.min _ 50 =? 0) with false by lia.
    + intros i c Hi.
      destruct (process_file_lookup _ _ _ _ _ _ Hp Hi) as (_ & Hid & _).
      split; [exact Hid|]. intros Hfree.
      rewrite Hdocs1, sent_rows_positive, Hid by done.
      apply (record_row_stored _ _ _ _ _ _ _ _ Hp Hi).
      destruct Hfree as [?|Hfree]; [by left|right].
      apply without_source_free. by rewrite <- Hid.
Qed.

(** C3, as stated: when the store fails on the first call of the first
    [index_file], the delete is skipped without an error and the add goes
    through, so the row [a.py_1] of an earlier, longer version of the file
    survives that re-index beside the new [a.py_0]; indexing the unchanged
    file once more then takes the number of rows of the file from two to
    one. *)
Lemma reindex_after_failed_delete_changes_rows :
  let h1 := snd (index_file Sample.fnmatch Sample.one_file_tree ["a.py"]
                   Sample.outage_handler) in
  let h2 := snd (index_file Sample.fnmatch Sample.one_file_tree ["a.py"] h1) in
  docs (collection h1) !! "a.py_1" = Some Sample.stale_row
  /\ size (filter (has_source "a.py") (docs (collection h1))) = 2%nat
  /\ size (filter (has_source "a.py") (docs (collection h2))) = 1%nat
  /\ docs (collection h2) !! "a.py_1" = None.
Proof. by vm_compute. Qed.

(** C3, amended: on a collection whose calls succeed, indexing the same
    unchanged file a second time leaves the rows of the collection as the
    first call left them. For a file that passes the gates and has chunks,
    a row found after the call is a row of another source that was there
    before, or record [i] of the file stored under [{source}_{i}], so no row
    of the file from an earlier chunk count survives; and with a positive
    batch size the file is counted as indexed and every record is stored
    under its id, unless the collection keeps rows it already holds and
    another source occupies that id. *)
Theorem index_file_idempotent fnmatch t p h :
  outages (collection h) = [] ->
  let h1 := snd (index_file fnmatch t p h) in
  let h2 := snd (index_file fnmatch t p h1) in
  docs (collection h2) = docs (collection h1)
  /\ forall records,
       qualifies fnmatch (processor h) t p = true ->
       process_file (processor h) t p = Some records ->
       (forall k row,
          docs (collection h1) !! k = Some row ->
          (source (snd row) <> rel_str p
           /\ docs (collection h) !! k = Some row)
          \/ exists i c,
               records !! i = Some c
               /\ k = rel_str p +:+ "_" +:+ Py.str_of_nat i
               /\ row = (document c, metadata c))
       /\ (0 < batch_size (config (processor h)) ->
           stats h1 = incr_indexed (stats h)
           /\ forall i c,
                records !! i = Some c ->
                id c = rel_str p +:+ "_" +:+ Py.str_of_nat i
                /\ (on_duplicate (collection h) = Overwrite
                    \/ (forall row,
                          docs (collection h) !! id c = Some row ->
                          source (snd row) = rel_str p) ->
                    docs (collection h1) !! id c
                    = Some (document c, metadata c))).
Proof.
  intros Hc h1 h2.
  destruct (qualifies fnmatch (processor h) t p) eqn:Hq.
  - destruct (process_file (processor h) t p) as [records|] eqn:Hp.
    + pose proof (index_file_healthy fnmatch t p h records Hc Hq Hp) as E1.
      assert (processor h1 = processor h) as Hproc
        by (subst h1; by rewrite E1).
      assert (outages (collection h1) = []) as Hc1
        by (subst h1; by rewrite E1).
      pose proof (index_file_healthy fnmatch t p h1 records Hc1) as E2.
      rewrite Hproc in E2. specialize (E2 Hq Hp).
      assert (docs (collection h1)
              = add_rows (on_duplicate (collection h))
                  (without_source (rel_str p) (docs (collection h)))
                  (sent_rows (config (processor h)) records)) as Hdocs1
        by (subst h1; by rewrite E1).
      split.
      * subst h2. rewrite E2. simpl. rewrite Hdocs1.
        replace (on_duplicate (collection h1))
          with (on_duplicate (collection h)) by (subst h1; by rewrite E1).
        apply reindex_stable. intros k v Hin.
        by destruct (sent_rows_source _ _ _ _ _ _ Hp Hin).
      * intros records' _ [= <-].
        exact (index_file_healthy_rows fnmatch t p h records Hc Hq Hp).
    + subst h2 h1. rewrite (index_file_no_chunks fnmatch t p h Hq Hp). simpl.
      rewrite (index_file_no_chunks fnmatch t p h Hq Hp).
      split; [done|]. by intros records _ [=].
  - assert (index_file fnmatch t p h = (Return tt, set_stats incr_skipped h))
      as E1.
    { unfold qualifies in Hq.
      destruct (is_code_file (processor h) t p) eqn:Hcode.
      - apply index_file_ignored; [done|]. by apply negb_false_iff.
      - by apply index_file_not_code. }
    assert (index_file fnmatch t p (set_stats incr_skipped h)
            = (Return tt, set_stats incr_skipped (set_stats incr_skipped h)))
      as E2.
    { unfold qualifies in Hq.
      destruct (is_code_file (processor h) t p) eqn:Hcode.
      - apply index_file_ignored; [done|]. by apply negb_false_iff.
      - by apply index_file_not_code. }
    subst h2 h1. rewrite E1. simpl. rewrite E2.
    split; [done|]. by intros records [=].
Qed.

(** A re-index of [a.py] after it shrank from two chunks to one: the one
    record is stored under [a.py_0], the row [a.py_1] of the longer version is
    gone, and a second call changes nothing. *)
Lemma index_file_idempotent_witness :
  let h1 := snd (index_file Sample.fnmatch Sample.one_file_tree ["a.py"]
                   Sample.stale_handler) in
  let h2 := snd (index_file Sample.fnmatch Sample.one_file_tree ["a.py"] h1) in
  docs (collection h2) = docs (collection h1)
  /\ docs (collection h1) !! "a.py_0"
     = Some (Sample.repeat_char "x" 60,
             {| source := "a.py"; filename := "a.py"; extension := ".py";
                language := "python"; chunk_index := 0; total_chunks := 1;
                directory := "." |})
  /\ docs (collection h1) !! "a.py_1" = None
  /\ indexed (stats h1) = 1.
Proof.
  intros h1 h2.
  destruct (index_file_idempotent Sample.fnmatch Sample.one_file_tree
              ["a.py"] Sample.stale_handler eq_refl) as [Hsame Hrows].
  fold h1 in Hsame, Hrows. fold h2 in Hsame.
  specialize (Hrows
    [ {| document := Sample.repeat_char "x" 60;
         metadata := {| source := "a.py"; filename := "a.py";
                        extension := ".py"; language := "python";
                        chunk_index := 0; total_chunks := 1;
                        directory := "." |};
         id := "a.py_0" |} ] eq_refl eq_refl) as [Horigin Hstored].
  destruct (Hstored eq_refl) as [Hstats Hstored'].
  split; [exact Hsame|]. split; [|split].
  - apply (Hstored' 0%nat _ eq_refl). right. intros row Hrow.
    vm_compute in Hrow. discriminate.
  - destruct (docs (collection h1) !! "a.py_1") as [row|] eqn:E; [|done].
    destruct (Horigin _ _ E) as [[Hsrc Hold]|(i & c & Hi & Hk & _)].
    + vm_compute in Hold. injection Hold as <-. by destruct Hsrc.
    + destruct i as [|i]; [|by destruct i].
      vm_compute in Hk. discriminate.
  - by rewrite Hstats.
Defined.

(** ** Deleting the prior chunk set *)

(** C9: [delete_by_source] never raises. When one of its two calls to the
    collection fails (the lookup of the ids, or the delete of the ids found) it
    returns [0] and leaves the rows as they were, which is also what it
    returns when no row carries the source, so the caller cannot tell the two
    apart. [index_file] then goes on to [add_documents] on the collection as
    the failed delete left it: when the store answers again, the file is
    counted as indexed, no row is removed, the rows stored under other ids
    stay as they were, and every record of the file is stored under its id
    [{source}_{i}] (where the collection keeps a row it already holds under
    that id, the old row stays). *)
Theorem delete_by_source_never_raises :
  (forall src c, exists n c', delete_by_source src c = (Return n, c'))
  /\ (forall src c rest,
        outages c = true :: rest ->
        delete_by_source src c = (Return 0, pop_outage c))
  /\ (forall src c rest,
        outages c = false :: true :: rest ->
        exists c', delete_by_source src c = (Return 0, c')
                   /\ docs c' = docs c)
  /\ (forall src c c',
        delete_by_source src c = (Return 0, c') -> docs c' = docs c)
  /\ (forall src c,
        outages c = [] ->
        filter (has_source src) (docs c) = ∅ ->
        delete_by_source src c = (Return 0, c))
  /\ (forall fnmatch t p h records rest,
        qualifies fnmatch (processor h) t p = true ->
        process_file (processor h) t p = Some records ->
        outages (collection h) = true :: rest ->
        let added :=
          add_documents (config (processor h)) (map document records)
            (map metadata records) (map id records)
            (pop_outage (collection h)) in
        index_file fnmatch t p h
        = (Return tt,
           {| processor := processor h;
              stats := match fst added with
                       | Return _ => incr_indexed (stats h)
                       | Raise _ => incr_errors (stats h)
                       end;
              collection := snd added |}))
  /\ (forall fnmatch t p h records,
        qualifies fnmatch (processor h) t p = true ->
        process_file (processor h) t p = Some records ->
        0 < batch_size (config (processor h)) ->
        outages (collection h) = [true] ->
        let h1 := snd (index_file fnmatch t p h) in
        fst (index_file fnmatch t p h) = Return tt
        /\ stats h1 = incr_indexed (stats h)
        /\ outages (collection h1) = []
        /\ (forall k, is_Some (docs (collection h) !! k) ->
                      is_Some (docs (collection h1) !! k))
        /\ (forall k, k ∉ map id records ->
                      docs (collection h1) !! k = docs (collection h) !! k)
        /\ (forall i c,
              records !! i = Some c ->
              id c = rel_str p +:+ "_" +:+ Py.str_of_nat i
              /\ (forall row,
                    on_duplicate (collection h) = KeepExisting ->
                    docs (collection h) !! id c = Some row ->
                    docs (collection h1) !! id c = Some row)
              /\ (on_duplicate (collection h) = Overwrite
                  \/ docs (collection h) !! id c = None ->
                  docs (collection h1) !! id c
                  = Some (document c, metadata c)))).
Proof.
  split; [exact delete_by_source_returns|].
  split; [exact delete_by_source_down|].
  split; [exact delete_by_source_delete_down|].
  split; [exact delete_by_source_zero|].
  split; [|split].
  - intros src c Hc Hnone.
    unfold delete_by_source, collection_get_ids. unfold_monad.
    rewrite (server_call_healthy _ Hc), Hnone.
    by rewrite map_to_list_empty.
  - intros fnmatch t p h records rest Hq Hp Hout.
    rewrite (index_file_indexing fnmatch t p h records Hq Hp).
    by rewrite (delete_by_source_down _ _ _ Hout).
  - intros fnmatch t p h records Hq Hp Hbs Hout h1.
    assert (index_file fnmatch t p h
            = (Return tt,
               {| processor := processor h;
                  stats := incr_indexed (stats h);
                  collection :=
                    {| docs := add_rows (on_duplicate (collection h))
                                 (docs (collection h))
                                 (map record_row records);
                       on_duplicate := on_duplicate (collection h);
                       outages := [] |} |})) as E.
    { rewrite (index_file_indexing fnmatch t p h records Hq Hp).
      rewrite (delete_by_source_down _ _ _ Hout). simpl.
      rewrite add_documents_healthy
        by (unfold pop_outage; simpl; by rewrite ?Hout, ?length_map).
      replace (Z.min _ 50 =? 0) with false by lia.
      replace (0 <? Z.min _ 50) with true by lia.
      simpl. rewrite rows_of_records.
      unfold set_docs, pop_outage. simpl. by rewrite Hout. }
    subst h1. rewrite E. simpl.
    split; [done|]. split; [done|]. split; [done|]. split; [|split].
    + intros k Hk. rewrite lookup_add_rows. apply settle_is_Some. by left.
    + intros k Hk. rewrite lookup_add_rows. apply settle_absent.
      by rewrite record_row_keys.
    + intros i c Hi.
      destruct (process_file_lookup _ _ _ _ _ _ Hp Hi) as (_ & Hid & _).
      split; [exact Hid|]. split.
      * intros row Hpol Hrow.
        by rewrite lookup_add_rows, Hpol, Hrow, settle_keep.
      * intros Hfree. rewrite Hid in *.
        by apply (record_row_stored _ _ _ _ _ _ _ _ Hp Hi).
Qed.

(** The delete fails for [a.py], which once had two chunks and now has one:
    [a.py_0] is stored beside the leftover [a.py_1], and the file counts as
    indexed. *)
Lemma delete_by_source_never_raises_witness :
  let h1 := snd (index_file Sample.fnmatch Sample.one_file_tree ["a.py"]
                   Sample.outage_handler) in
  delete_by_source "a.py" (collection Sample.outage_handler)
  = (Return 0, pop_outage (collection Sample.outage_handler))
  /\ docs (collection h1) !! "a.py_0"
     = Some (Sample.repeat_char "x" 60,
             {| source := "a.py"; filename := "a.py"; extension := ".py";
                language := "python"; chunk_index := 0; total_chunks := 1;
                directory := "." |})
  /\ docs (collection h1) !! "a.py_1" = Some Sample.stale_row
  /\ indexed (stats h1) = 1.
Proof.
  intros h1.
  destruct delete_by_source_never_raises
    as (_ & Hdown & _ & _ & _ & _ & Hindex).
  split.
  { apply (Hdown "a.py" (collection Sample.outage_handler) []). reflexivity. }
  destruct (Hindex Sample.fnmatch Sample.one_file_tree ["a.py"]
              Sample.outage_handler
              [ {| document := Sample.repeat_char "x" 60;
                   metadata := {| source := "a.py"; filename := "a.py";
                                  extension := ".py"; language := "python";
                                  chunk_index := 0; total_chunks := 1;
                                  directory := "." |};
                   id := "a.py_0" |} ]
              eq_refl eq_refl eq_refl eq_refl)
    as (_ & Hstats & _ & _ & Hframe & Hstored).
  fold h1 in Hstats, Hframe, Hstored.
  split; [|split].
  - apply (Hstored 0%nat _ eq_refl). by right.
  - rewrite Hframe; [reflexivity|]. simpl.
    intros [Heq|Hin]%elem_of_cons; [discriminate|by apply elem_of_nil in Hin].
  - by rewrite Hstats.
Defined.

(** ** More on [delete_by_source] and [remove_file] *)

Lemma delete_by_source_healthy_count src c :
  outages c = [] ->
  delete_by_source src c
  = (Return (Z.of_nat (size (filter (has_source src) (docs c)))),
     set_docs (without_source src (docs c)) c).
Proof.
  intros H. unfold delete_by_source, collection_get_ids, collection_delete.
  unfold_monad. rewrite (server_call_healthy _ H).
  pose proof (foldr_delete_filter_keys (has_source src) (docs c)) as Hdel.
  fold (without_source src (docs c)) in Hdel.
  assert (length (map_to_list (filter (has_source src) (docs c))).*1
          = size (filter (has_source src) (docs c))) as Hlen
    by (by rewrite length_fmap, length_map_to_list).
  destruct ((map_to_list (filter (has_source src) (docs c))).*1) as [|i ids].
  - simpl in Hdel, Hlen. by rewrite <- Hdel, <- Hlen, set_docs_id.
  - rewrite (server_call_healthy _ H). by rewrite Hdel, <- Hlen.
Qed.

(** Whatever the collection does, [delete_by_source] deletes all rows of the
    source or none. *)
Lemma delete_by_source_all_or_nothing src c :
  docs (snd (delete_by_source src c)) = docs c
  \/ docs (snd (delete_by_source src c)) = without_source src (docs c).
Proof.
  unfold delete_by_source, collection_get_ids, collection_delete.
  unfold_monad.
  pose proof (server_call_docs c) as H1.
  destruct (server_call c) as [[[]|e] c1]; simpl in *; [|by left].
  pose proof (foldr_delete_filter_keys (has_source src) (docs c1)) as Hdel.
  destruct ((map_to_list (filter (has_source src) (docs c1))).*1) as [|i ids];
    [by left|].
  pose proof (server_call_docs c1) as H2.
  destruct (server_call c1) as [[[]|e] c2]; simpl in *.
  - right. rewrite H2, Hdel, H1. done.
  - left. congruence.
Qed.

(** X4: on a collection without outages, [delete_by_source] returns the
    number of rows that carry the source and leaves exactly the rows of the
    other sources; under outages it still deletes all rows of the source or
    none of them, never a part. *)
Theorem delete_by_source_removes_source :
  (forall src c,
     outages c = [] ->
     delete_by_source src c
     = (Return (Z.of_nat (size (filter (has_source src) (docs c)))),
        set_docs (without_source src (docs c)) c))
  /\ (forall src (m : gmap string Row) k row,
        without_source src m !! k = Some row
        <-> m !! k = Some row /\ source (snd row) <> src)
  /\ (forall src c,
        docs (snd (delete_by_source src c)) = docs c
        \/ docs (snd (delete_by_source src c)) = without_source src (docs c)).
Proof.
  split; [exact delete_by_source_healthy_count|].
  split; [|exact delete_by_source_all_or_nothing].
  intros src m k row. rewrite lookup_without_source.
  destruct (m !! k) as [v|]; [|by split; [|intros []]].
  case_decide as Hsrc; split.
  - done.
  - intros [[= <-] Hne]. done.
  - intros [= <-]. done.
  - by intros [-> _].
Qed.

Lemma delete_by_source_removes_source_witness :
  delete_by_source "a.py" (collection Sample.stale_handler)
  = (Return 1,
     set_docs (without_source "a.py" (docs (collection Sample.stale_handler)))
       (collection Sample.stale_handler)).
Proof.
  rewrite (proj1 delete_by_source_removes_source "a.py"
             (collection Sample.stale_handler) eq_refl).
  reflexivity.
Defined.

Section RemoveFile.

Variable p : Path.

Lemma remove_file_shape h :
  let removed := delete_by_source (rel_str p) (collection h) in
  exists n,
    fst removed = Return n
    /\ remove_file p h
       = (Return tt,
          {| processor := processor h;
             stats := if n >? 0 then incr_deleted (stats h) else stats h;
             collection := snd removed |}).
Proof.
  intros removed. subst removed.
  destruct (delete_by_source_returns (rel_str p) (collection h))
    as (n & c' & Hdel).
  exists n. rewrite Hdel. split; [done|].
  unfold remove_file. unfold_monad. rewrite Hdel. simpl.
  destruct (n >? 0); [done|]. by destruct h.
Qed.

End RemoveFile.

(** X5: [remove_file] never raises and never counts an error, not even when
    the store is unreachable: its [except] branch cannot be reached because
    [delete_by_source] swallows every exception. It changes no counter but
    [deleted], which goes up by one (per file, not per chunk) exactly when
    [delete_by_source] reported a positive count; on a collection without
    outages that is when some row carried the source, and afterwards no row
    carries it. *)
Theorem remove_file_never_errors :
  (forall p h,
     exists h',
       remove_file p h = (Return tt, h')
       /\ processor h' = processor h
       /\ errors (stats h') = errors (stats h)
       /\ indexed (stats h') = indexed (stats h)
       /\ skipped (stats h') = skipped (stats h)
       /\ (deleted (stats h') = deleted (stats h)
           \/ deleted (stats h') = deleted (stats h) + 1))
  /\ (forall p h,
        outages (collection h) = [] ->
        remove_file p h
        = (Return tt,
           {| processor := processor h;
              stats := if decide (filter (has_source (rel_str p))
                                    (docs (collection h)) = ∅)
                       then stats h else incr_deleted (stats h);
              collection :=
                set_docs (without_source (rel_str p) (docs (collection h)))
                  (collection h) |}))
  /\ (forall p h k row,
        outages (collection h) = [] ->
        docs (collection (snd (remove_file p h))) !! k = Some row ->
        source (snd row) <> rel_str p).
Proof.
  split; [|split].
  - intros p h. destruct (remove_file_shape p h) as (n & _ & ->).
    eexists. split; [done|]. destruct (n >? 0); simpl; auto 10.
  - intros p h Hc. destruct (remove_file_shape p h) as (n & Hn & ->).
    rewrite (delete_by_source_healthy_count _ _ Hc) in *. simpl in *.
    injection Hn as <-. do 2 f_equal.
    case_decide as He.
    + rewrite He, map_size_empty. done.
    + apply map_size_non_empty_iff in He.
      destruct (_ >? 0) eqn:E; [done|lia].
  - intros p h k row Hc. destruct (remove_file_shape p h) as (n & _ & ->).
    rewrite (delete_by_source_healthy_count _ _ Hc). simpl.
    apply without_source_clean.
Qed.

Lemma remove_file_never_errors_witness :
  deleted (stats (snd (remove_file ["a.py"] Sample.stale_handler))) = 1
  /\ docs (collection (snd (remove_file ["a.py"] Sample.stale_handler)))
     = without_source "a.py" (docs (collection Sample.stale_handler)).
Proof.
  rewrite (proj1 (proj2 remove_file_never_errors) ["a.py"]
             Sample.stale_handler eq_refl).
  split; reflexivity.
Defined.

(** ** Adding under outages *)

Lemma elem_of_list_slice {A} (x : A) l i e :
  x ∈ list_slice l i e -> x ∈ l.
Proof.
  unfold list_slice. intros (n & Hn & _)%elem_of_take.
  rewrite <- (take_drop i l). apply elem_of_app. right.
  by eapply list_elem_of_lookup_2.
Qed.

Lemma rows_of_keys documents metadatas ids k :
  k ∈ (rows_of documents metadatas ids).*1 -> k ∈ ids.
Proof.
  intros [v Hv]%elem_of_keys. unfold rows_of in Hv.
  by apply elem_of_zip_l in Hv.
Qed.

Lemma add_rows_frame pol (m : gmap string Row) rows k :
  k ∉ rows.*1 -> add_rows pol m rows !! k = m !! k.
Proof. intros H. by rewrite lookup_add_rows, settle_absent. Qed.

Lemma add_rows_keeps pol (m : gmap string Row) rows k :
  is_Some (m !! k) -> is_Some (add_rows pol m rows !! k).
Proof. intros H. rewrite lookup_add_rows. apply settle_is_Some. by left. Qed.

(** One [collection.add]: it leaves the rows alone or adds all the rows it
    was given. *)
Lemma collection_add_cases documents metadatas ids c :
  let r := collection_add documents metadatas ids c in
  on_duplicate (snd r) = on_duplicate c
  /\ (docs (snd r) = docs c
      \/ (fst r = Return tt
          /\ docs (snd r)
             = add_rows (on_duplicate c) (docs c)
                 (rows_of documents metadatas ids))).
Proof.
  unfold collection_add, server_call. unfold_monad.
  destruct (outages c) as [|[] rest]; simpl;
    try case_bool_decide; simpl; auto.
Qed.

Section AddBatches.

Variable documents : list string.
Variable metadatas : list Metadata.
Variable ids : list string.
Variable step : nat.

(** A key that is not among the ids handed over is left as it was. *)
Lemma add_batches_frame k fuel : forall i c,
  k ∉ ids ->
  docs (snd (add_batches fuel step i documents metadatas ids c)) !! k
  = docs c !! k.
Proof.
  induction fuel as [|fuel IH]; intros i c Hk; simpl; [done|].
  destruct (i <? length documents)%nat; [|done].
  unfold_monad.
  destruct (collection_add_cases
              (list_slice documents i (Nat.min (i + step) (length documents)))
              (list_slice metadatas i (Nat.min (i + step) (length documents)))
              (list_slice ids i (Nat.min (i + step) (length documents))) c)
    as [_ Hadd].
  destruct (collection_add _ _ _ c) as [[[]|e] c1]; simpl in *.
  - rewrite IH by done.
    destruct Hadd as [->|[_ ->]]; [done|].
    apply add_rows_frame. intros Hin%rows_of_keys%elem_of_list_slice.
    by apply Hk.
  - destruct Hadd as [->|[[=] _]]. done.
Qed.

(** No key is ever removed. *)
Lemma add_batches_keeps k fuel : forall i c,
  is_Some (docs c !! k) ->
  is_Some (docs (snd (add_batches fuel step i documents metadatas ids c)) !! k).
Proof.
  induction fuel as [|fuel IH]; intros i c Hk; simpl; [done|].
  destruct (i <? length documents)%nat; [|done].
  unfold_monad.
  destruct (collection_add_cases
              (list_slice documents i (Nat.min (i + step) (length documents)))
              (list_slice metadatas i (Nat.min (i + step) (length documents)))
              (list_slice ids i (Nat.min (i + step) (length documents))) c)
    as [_ Hadd].
  destruct (collection_add _ _ _ c) as [[[]|e] c1]; simpl in *.
  - apply IH. destruct Hadd as [->|[_ ->]]; [done|]. by apply add_rows_keeps.
  - destruct Hadd as [->|[[=] _]]. done.
Qed.

(** When the call for batch [j] is the first to fail, the rows of the [j]
    batches before it are in the collection, the rest is not, and the
    exception is passed on. *)
Lemma add_batches_outage j : forall fuel i c rest,
  (0 < step)%nat ->
  length documents = length ids -> length metadatas = length ids ->
  outages c = (replicate j false ++ true :: rest)%list ->
  (i + j * step < length documents)%nat ->
  (length documents - i <= fuel)%nat ->
  add_batches fuel step i documents metadatas ids c
  = (Raise StoreError,
     {| docs := add_rows (on_duplicate c) (docs c)
                  (take (j * step) (drop i (rows_of documents metadatas ids)));
        on_duplicate := on_duplicate c;
        outages := rest |}).
Proof.
  induction j as [|j IH]; intros fuel i c rest Hstep Hd Hm Hout Hj Hfuel;
    (destruct fuel as [|fuel]; [lia|]); simpl;
    replace (i <? length documents)%nat with true
      by (symmetry; apply Nat.ltb_lt; lia);
    unfold_monad; unfold collection_add at 1; unfold_monad.
  - simpl in Hout. rewrite (server_call_down _ _ Hout).
    unfold pop_outage. by rewrite Hout.
  - simpl in Hout. rewrite (server_call_up _ _ Hout).
    rewrite bool_decide_eq_true_2
      by (unfold list_slice; rewrite !length_take, !length_drop; lia).
    simpl. rewrite (IH fuel (i + step)%nat _ rest); try done; try lia.
    + simpl. rewrite rows_of_slice, add_rows_app. do 3 f_equal.
      unfold list_slice. rewrite Nat.min_l by lia.
      replace (i + step - i)%nat with step by lia.
      rewrite <- (drop_drop _ step i). apply take_take_drop.
    + simpl. by rewrite Hout.
Qed.

End AddBatches.

(** X6: [add_documents] sends the rows in batches of
    [min(batch_size, 50)], one [collection.add] per batch, and stops at the
    first call that fails: if the first [j] calls succeed and the next one
    fails, exactly the first [j] batches of rows have been added, nothing of
    the later batches, and the exception is raised to the caller. *)
Theorem add_documents_partial_failure cfg documents metadatas ids c j rest :
  let size := Z.to_nat (Z.min (batch_size cfg) 50) in
  0 < batch_size cfg ->
  length documents = length ids -> length metadatas = length ids ->
  outages c = (replicate j false ++ true :: rest)%list ->
  (j * size < length documents)%nat ->
  (size <= 50)%nat
  /\ add_documents cfg documents metadatas ids c
     = (Raise StoreError,
        {| docs := add_rows (on_duplicate c) (docs c)
                     (take (j * size) (rows_of documents metadatas ids));
           on_duplicate := on_duplicate c;
           outages := rest |}).
Proof.
  intros size Hbs Hd Hm Hout Hj. split; [subst size; lia|].
  unfold add_documents.
  replace (Z.min (batch_size cfg) 50 =? 0) with false by lia.
  replace (Z.min (batch_size cfg) 50 <? 0) with false by lia.
  fold size.
  rewrite (add_batches_outage documents metadatas ids size j _ 0%nat c rest);
    try done; subst size; lia.
Qed.

Lemma add_documents_frame cfg documents metadatas ids c k :
  k ∉ ids ->
  docs (snd (add_documents cfg documents metadatas ids c)) !! k = docs c !! k.
Proof.
  intros Hk. unfold add_documents.
  destruct (_ =? 0); [done|]. destruct (_ <? 0); [done|].
  by apply add_batches_frame.
Qed.

Lemma add_documents_keeps cfg documents metadatas ids c k :
  is_Some (docs c !! k) ->
  is_Some (docs (snd (add_documents cfg documents metadatas ids c)) !! k).
Proof.
  intros Hk. unfold add_documents.
  destruct (_ =? 0); [done|]. destruct (_ <? 0); [done|].
  by apply add_batches_keeps.
Qed.

(** ** More on [index_file] *)

Section IndexFileAlways.

Variable fnmatch : string -> string -> bool.
Variable t : Tree.
Variable p : Path.

Lemma index_file_rejected h :
  qualifies fnmatch (processor h) t p = false ->
  index_file fnmatch t p h = (Return tt, set_stats incr_skipped h).
Proof.
  unfold qualifies. intros Hq.
  destruct (is_code_file (processor h) t p) eqn:Hcode.
  - apply index_file_ignored; [done|]. by apply negb_false_iff.
  - by apply index_file_not_code.
Qed.

(** The three ways [index_file] can end. *)
Lemma index_file_cases h :
  (qualifies fnmatch (processor h) t p = false
   /\ index_file fnmatch t p h = (Return tt, set_stats incr_skipped h))
  \/ (qualifies fnmatch (processor h) t p = true
      /\ process_file (processor h) t p = None
      /\ index_file fnmatch t p h = (Return tt, h))
  \/ (exists records,
        qualifies fnmatch (processor h) t p = true
        /\ process_file (processor h) t p = Some records
        /\ let added :=
             add_documents (config (processor h)) (map document records)
               (map metadata records) (map id records)
               (snd (delete_by_source (rel_str p) (collection h))) in
           index_file fnmatch t p h
           = (Return tt,
              {| processor := processor h;
                 stats := match fst added with
                          | Return _ => incr_indexed (stats h)
                          | Raise _ => incr_errors (stats h)
                          end;
                 collection := snd added |})).
Proof.
  destruct (qualifies fnmatch (processor h) t p) eqn:Hq.
  - destruct (process_file (processor h) t p) as [records|] eqn:Hp.
    + right. right. exists records. repeat split; try done.
      by apply index_file_indexing.
    + right. left. repeat split; try done. by apply index_file_no_chunks.
  - left. split; [done|]. by apply index_file_rejected.
Qed.

End IndexFileAlways.

(** X7: [index_file] never raises, whatever the file system and the store
    do. It leaves the processor and the [deleted] counter alone and changes
    at most one of the other counters, by one: [skipped] exactly when a check
    rejected the path, otherwise [indexed] or [errors], or none when the file
    gave no chunks. *)
Theorem index_file_never_raises fnmatch t p h :
  exists h',
    index_file fnmatch t p h = (Return tt, h')
    /\ processor h' = processor h
    /\ deleted (stats h') = deleted (stats h)
    /\ (stats h' = stats h
        \/ stats h' = incr_skipped (stats h)
        \/ stats h' = incr_indexed (stats h)
        \/ stats h' = incr_errors (stats h))
    /\ (stats h' = incr_skipped (stats h)
        <-> qualifies fnmatch (processor h) t p = false).
Proof.
  assert (forall s, s <> incr_skipped s) as Hs
    by (intros [a b c d] [=]; lia).
  assert (forall s, incr_indexed s <> incr_skipped s) as Hi
    by (intros [a b c d] [=]; lia).
  assert (forall s, incr_errors s <> incr_skipped s) as He
    by (intros [a b c d] [=]; lia).
  destruct (index_file_cases fnmatch t p h)
    as [[Hq ->]|[(Hq & Hp & ->)|(records & Hq & Hp & ->)]];
    eexists; (split; [done|]); simpl; rewrite Hq.
  - repeat split; auto.
  - repeat split; auto; try done. intros H. by apply Hs in H.
  - destruct (fst _); repeat split; auto; try done;
      intros H; by (apply Hi in H || apply He in H).
Qed.

(** X8: [index_file] for one file never touches the rows of another file:
    a row of another source that is stored under an id of its own source
    stays as it is, whichever way the call ends and whatever the store's
    outages. *)
Theorem index_file_frame fnmatch t p h k row j :
  docs (collection h) !! k = Some row ->
  source (snd row) <> rel_str p ->
  k = make_id (source (snd row)) j ->
  docs (collection (snd (index_file fnmatch t p h))) !! k = Some row.
Proof.
  intros Hrow Hsrc Hk.
  destruct (index_file_cases fnmatch t p h)
    as [[Hq ->]|[(Hq & Hp & ->)|(records & Hq & Hp & ->)]]; try done.
  simpl. rewrite add_documents_frame.
  - destruct (delete_by_source_all_or_nothing (rel_str p) (collection h))
      as [->| ->]; [done|].
    rewrite lookup_without_source, Hrow. by case_decide.
  - intros (c & Hid & (i & Hi)%list_elem_of_lookup)%list_elem_of_fmap.
    destruct (process_file_lookup _ _ _ _ _ _ Hp Hi) as (_ & Hidc & _).
    rewrite Hk, Hidc in Hid.
    apply split_at_last_underscore in Hid as [Heq _];
      try apply string_of_uint_no_underscore.
    done.
Qed.

(** ** More on [initial_index] *)

Section InitialIndexAlways.

Variable fnmatch : string -> string -> bool.
Variable t : Tree.

Lemma walk_keeps_refl h : walk_keeps h h.
Proof. by repeat split. Qed.

Lemma walk_keeps_trans h1 h2 h3 :
  walk_keeps h1 h2 -> walk_keeps h2 h3 -> walk_keeps h1 h3.
Proof.
  intros (Hp1 & Hs1 & Hk1) (Hp2 & Hs2 & Hk2).
  repeat split; try congruence. auto.
Qed.

Lemma initial_index_file_keeps p n h :
  walk_keeps h (snd (initial_index_file fnmatch t p n h)).
Proof.
  destruct (qualifies fnmatch (processor h) t p) eqn:Hq.
  - destruct (process_file (processor h) t p) as [records|] eqn:Hp.
    + rewrite (initial_index_file_indexing fnmatch t p h n records Hq Hp).
      simpl. repeat split; try done.
      intros k Hk. by apply add_documents_keeps.
    + apply andb_true_iff in Hq as [H1 H2%negb_true_iff].
      unfold initial_index_file. unfold_monad. rewrite H1, H2, Hp.
      apply walk_keeps_refl.
  - rewrite (initial_index_file_rejected fnmatch t p h n Hq).
    apply walk_keeps_refl.
Qed.

Lemma initial_index_files_keeps root files : forall n h,
  walk_keeps h (snd (initial_index_files fnmatch t root files n h)).
Proof.
  induction files as [|file files IH]; intros n h; simpl;
    [apply walk_keeps_refl|].
  unfold_monad.
  pose proof (initial_index_file_keeps (root ++ [file])%list n h) as H1.
  destruct (initial_index_file fnmatch t (root ++ [file])%list n h)
    as [[n'|e] h1]; simpl in *; [|done].
  eapply walk_keeps_trans; [exact H1|apply IH].
Qed.

Lemma initial_index_dirs_keeps dirs : forall n h,
  walk_keeps h (snd (initial_index_dirs fnmatch t dirs n h)).
Proof.
  induction dirs as [|[root files] dirs IH]; intros n h; simpl;
    [apply walk_keeps_refl|].
  unfold_monad.
  pose proof (initial_index_files_keeps root files n h) as H1.
  destruct (initial_index_files fnmatch t root files n h)
    as [[n'|e] h1]; simpl in *; [|done].
  eapply walk_keeps_trans; [exact H1|apply IH].
Qed.

End InitialIndexAlways.

(** X9: [initial_index] never writes the handler's counters and never
    deletes: after it, whether it returned or raised, [stats] and the
    processor are as before and every id that was in the collection is still
    there. *)
Theorem initial_index_keeps_stats_and_ids fnmatch t h :
  let h' := snd (initial_index fnmatch t h) in
  stats h' = stats h
  /\ processor h' = processor h
  /\ forall k, is_Some (docs (collection h) !! k) ->
               is_Some (docs (collection h') !! k).
Proof.
  intros h'. subst h'. unfold initial_index. unfold_monad.
  destruct (initial_index_dirs_keeps fnmatch t
              (walk (exclude_dirs (config (processor h))) t) 0 h)
    as (Hp & Hs & Hk).
  by repeat split.
Qed.

(** X10: [initial_index] has no exception handler. When the store fails on
    the first [collection.add] for a file, [StoreError] escapes from
    [initial_index]: the remaining files of the walk are not visited, and
    nothing is counted. For the same file and store [index_file] returns
    normally. *)
Theorem initial_index_aborts_on_store_failure fnmatch t file others h
    records rest :
  file_names t = file :: others ->
  qualifies fnmatch (processor h) t [file] = true ->
  process_file (processor h) t [file] = Some records ->
  0 < batch_size (config (processor h)) ->
  outages (collection h) = true :: rest ->
  initial_index fnmatch t h
  = (Raise StoreError, set_collection (pop_outage (collection h)) h)
  /\ fst (index_file fnmatch t [file] h) = Return tt.
Proof.
  intros Hfiles Hq Hp Hbs Hout. split.
  - unfold initial_index, walk. unfold_monad. simpl.
    rewrite Hfiles. simpl. unfold_monad.
    rewrite (initial_index_file_indexing fnmatch t [file] h 0 records Hq Hp).
    pose proof (process_file_nonempty _ _ _ _ Hp) as Hne.
    unfold add_documents.
    replace (Z.min (batch_size (config (processor h))) 50 =? 0) with false
      by lia.
    replace (Z.min (batch_size (config (processor h))) 50 <? 0) with false
      by lia.
    rewrite (add_batches_outage _ _ _ _ 0 _ 0%nat (collection h) rest);
      rewrite ?length_map; try done; try lia.
    + simpl. unfold set_collection, pop_outage. simpl. by rewrite Hout.
    + destruct records; [done|]. simpl. lia.
  - by destruct (index_file_cases fnmatch t [file] h)
      as [[_ ->]|[(_ & _ & ->)|(? & _ & _ & ->)]].
Qed.

(** ** More on the exclusion rules *)

Lemma startswith_app p r : Py.startswith (p +:+ r) p = true.
Proof.
  induction p as [|x p IH]; [apply startswith_nil|].
  rewrite append_cons. simpl. by rewrite Ascii.eqb_refl, IH.
Qed.

Lemma contains_of_startswith s sub :
  Py.startswith s sub = true -> Py.contains s sub = true.
Proof.
  intros H. destruct s; unfold Py.contains; fold Py.contains; by rewrite H.
Qed.

Lemma contains_app_l a b sub :
  Py.contains b sub = true -> Py.contains (a +:+ b) sub = true.
Proof.
  intros H. induction a as [|x a IH]; [done|].
  rewrite append_cons. unfold Py.contains; fold Py.contains.
  rewrite IH. apply orb_true_r.
Qed.

Lemma contains_middle a b c : Py.contains (a +:+ b +:+ c) b = true.
Proof. apply contains_app_l, contains_of_startswith, startswith_app. Qed.

Lemma join_cons sep x y l :
  Py.join sep (x :: y :: l) = x +:+ sep +:+ Py.join sep (y :: l).
Proof. reflexivity. Qed.

(** A component of a path shows up between two slashes in the path written
    with a slash before and after it. *)
Lemma join_component l1 d l2 :
  exists a c,
    "/" +:+ Py.join "/" (l1 ++ d :: l2)%list +:+ "/"
    = a +:+ ("/" +:+ d +:+ "/") +:+ c.
Proof.
  induction l1 as [|x l1 IH].
  - destruct l2 as [|y l2].
    + exists "", "". simpl. by rewrite append_nil_l, append_nil_r.
    + exists "", (Py.join "/" (y :: l2) +:+ "/").
      rewrite app_nil_l, join_cons, append_nil_l.
      by rewrite !append_assoc.
  - destruct IH as (a & c & IH).
    exists ("/" +:+ x +:+ a), c.
    destruct (l1 ++ d :: l2)%list as [|y l] eqn:E.
    + by destruct l1.
    + change ((x :: l1) ++ d :: l2)%list with (x :: (l1 ++ d :: l2))%list.
      rewrite E, join_cons. rewrite !append_assoc.
      rewrite IH. by rewrite !append_assoc.
Qed.

Lemma dir_excludes_component p d :
  d ∈ p -> dir_excludes (rel_str p) d = true.
Proof.
  intros (l1 & l2 & ->)%list_elem_of_split.
  unfold dir_excludes. apply orb_true_iff. left.
  assert (rel_str (l1 ++ d :: l2)%list = Py.join "/" (l1 ++ d :: l2)%list) as ->
    by (by destruct l1).
  destruct (join_component l1 d l2) as (a & c & ->).
  apply contains_middle.
Qed.

(** X11: directory exclusion works at any depth, and on the last component
    too: a path one of whose components is a name in [exclude_dirs] is
    ignored by the first rule of [should_ignore], so [index_file] counts it
    as skipped and does nothing else. *)
Theorem exclude_dir_any_depth fnmatch self p d :
  d ∈ exclude_dirs (config self) ->
  d ∈ p ->
  ignore_rule fnmatch self p = Some ByExcludeDir
  /\ should_ignore fnmatch self p = true
  /\ forall t h,
       processor h = self ->
       index_file fnmatch t p h = (Return tt, set_stats incr_skipped h).
Proof.
  intros Hd Hp.
  assert (ignore_rule fnmatch self p = Some ByExcludeDir) as Hrule.
  { unfold ignore_rule.
    rewrite (proj2 (exclude_dir_check self p)); [done|].
    exists d. split; [done|]. by apply dir_excludes_component. }
  split; [done|].
  assert (should_ignore fnmatch self p = true) as Hign
    by (unfold should_ignore; by rewrite Hrule).
  split; [done|].
  intros t h <-. apply index_file_rejected.
  unfold qualifies. rewrite Hign. apply andb_false_r.
Qed.

Lemma exclude_dir_any_depth_witness :
  ignore_rule Sample.fnmatch Sample.default_processor
    ["frontend"; "node_modules"; "react"; "index.js"]
  = Some ByExcludeDir.
Proof.
  apply (exclude_dir_any_depth Sample.fnmatch Sample.default_processor
           ["frontend"; "node_modules"; "react"; "index.js"] "node_modules").
  - apply (bool_decide_unpack _). by vm_compute.
  - repeat constructor.
Defined.

(** ** More on [is_code_file] *)

Lemma suffix_without_inner_dot p :
  (forall k, (0 < k)%nat -> String.get k (name p) <> Some "."%char) ->
  suffix p = "".
Proof.
  intros Hdots. unfold suffix, Py.rfind_all.
  destruct (rfind_spec (name p) "." 0 (Py.len (name p)))
    as [[-> _]|(Hb & Hget & _)]; [done|].
  destruct (decide (0 < Py.rfind (name p) "." 0 (Py.len (name p))))
    as [Hpos|Hzero].
  - exfalso. apply (Hdots (Z.to_nat (Py.rfind (name p) "." 0
                                       (Py.len (name p))))); [lia|done].
  - by replace (0 <? _) with false by lia.
Qed.

Lemma is_code_file_no_suffix self t p :
  suffix p = "" -> "" ∉ file_extensions (config self) ->
  is_code_file self t p = false.
Proof.
  intros Hsuffix Hext. unfold is_code_file. rewrite Hsuffix.
  destruct (negb _); [done|]. by apply bool_decide_eq_false_2.
Qed.

(** X12: a name whose only dot, if any, is its first character has the empty
    suffix ([Makefile], [.gitignore], [.env]); unless the empty string is in
    [file_extensions] such a file is never a code file, so the entry [.env]
    of the default extensions does not make a file named [.env]
    indexable. *)
Theorem dotfile_has_no_suffix p :
  (forall k, (0 < k)%nat -> String.get k (name p) <> Some "."%char) ->
  suffix p = ""
  /\ forall self t,
       "" ∉ file_extensions (config self) -> is_code_file self t p = false.
Proof.
  intros Hdots. pose proof (suffix_without_inner_dot p Hdots) as Hsuffix.
  split; [done|]. intros self t. by apply is_code_file_no_suffix.
Qed.

Lemma dotfile_has_no_suffix_witness :
  is_code_file Sample.default_processor [ FileNode ".env" (ReadOk "A=1") ]
    [".env"]
  = false.
Proof.
  apply (proj2 (dotfile_has_no_suffix [".env"]
                  ltac:(intros [|[|[|[|[|k]]]]] Hk; simpl; try lia;
                        discriminate))).
  by vm_compute.
Defined.

(** ** Sample runs of the store failure properties *)

Lemma add_documents_partial_failure_witness :
  add_documents Sample2.small_batch_config ["one"; "two"; "three"]
    (map Sample2.chunk_metadata [0; 1; 2]%nat) ["a.py_0"; "a.py_1"; "a.py_2"]
    Sample2.flaky_collection
  = (Raise StoreError,
     {| docs := {[ "a.py_0" := ("one", Sample2.chunk_metadata 0);
                   "a.py_1" := ("two", Sample2.chunk_metadata 1) ]};
        on_duplicate := KeepExisting;
        outages := [] |}).
Proof.
  refine (eq_trans
    (proj2 (add_documents_partial_failure Sample2.small_batch_config
              ["one"; "two"; "three"]
              (map Sample2.chunk_metadata [0; 1; 2]%nat)
              ["a.py_0"; "a.py_1"; "a.py_2"]
              Sample2.flaky_collection 1 [] _ _ _ _ _)) _).
  - by vm_compute.
  - reflexivity.
  - reflexivity.
  - reflexivity.
  - vm_compute. lia.
  - vm_compute. reflexivity.
Defined.

Lemma index_file_frame_witness :
  docs (collection (snd (index_file Sample.fnmatch Sample2.two_file_tree
                           ["b.py"] Sample.stale_handler))) !! "a.py_1"
  = Some Sample.stale_row.
Proof.
  apply (index_file_frame Sample.fnmatch Sample2.two_file_tree ["b.py"]
           Sample.stale_handler "a.py_1" Sample.stale_row 1).
  - by vm_compute.
  - by vm_compute.
  - by vm_compute.
Defined.

Lemma initial_index_aborts_on_store_failure_witness :
  initial_index Sample.fnmatch Sample.one_file_tree Sample.outage_handler
  = (Raise StoreError,
     set_collection (pop_outage (collection Sample.outage_handler))
       Sample.outage_handler)
  /\ fst (index_file Sample.fnmatch Sample.one_file_tree ["a.py"]
            Sample.outage_handler) = Return tt.
Proof.
  eapply (initial_index_aborts_on_store_failure Sample.fnmatch
            Sample.one_file_tree "a.py" [] Sample.outage_handler _ []).
  - reflexivity.
  - by vm_compute.
  - vm_compute. reflexivity.
  - by vm_compute.
  - reflexivity.
Defined.

(** ** The embedding function: what is sent to the model *)

Section Prompt.

Variable num : Type.

(** The prompt [__call__] posts for a text. *)
Lemma try_embed_prompt (post : string -> Ollama.HttpOutcome num) text :
  exists prompt,
    Py.len prompt <= 8000
    /\ prompt = Py.slice_to text 8000
    /\ Ollama.try_embed num post text
       = match post prompt with
         | Ollama.RequestFailed => None
         | Ollama.Response status_code body =>
             if negb (status_code =? 200) then None else body
         end.
Proof.
  exists (Py.slice_to text 8000). split.
  - pose proof (len_slice_le text 0 8000). unfold Py.slice_to. lia.
  - split; [done|]. unfold Ollama.try_embed.
    destruct (Py.len text >? 8000) eqn:E; [done|].
    rewrite slice_to_all; [done|lia].
Qed.

End Prompt.

(** X13: [__call__] looks at the first 8000 characters of a text only: two
    lists of texts that agree on them get the same vectors, and the answer
    does not depend on what the server would say to a prompt of more than
    8000 characters, because no such prompt is posted. *)
Theorem call_reads_first_8000_characters (num : Type) (zero : num)
  (post : string -> Ollama.HttpOutcome num) (texts : list string) :
  Ollama.call num zero post texts
  = Ollama.call num zero post (map (fun t => Py.slice_to t 8000) texts)
  /\ forall post' : string -> Ollama.HttpOutcome num,
       (forall prompt, Py.len prompt <= 8000 -> post' prompt = post prompt) ->
       Ollama.call num zero post' texts = Ollama.call num zero post texts.
Proof.
  split.
  - unfold Ollama.call. rewrite map_map. apply map_ext. intros t.
    destruct (try_embed_prompt num post t) as (q & Hq & -> & ->).
    destruct (try_embed_prompt num post (Py.slice_to t 8000))
      as (q' & _ & -> & ->).
    rewrite (slice_to_all (Py.slice_to t 8000)); [done|lia].
  - intros post' Hpost. unfold Ollama.call. apply map_ext. intros t.
    destruct (try_embed_prompt num post t) as (q & Hq & -> & ->).
    destruct (try_embed_prompt num post' t) as (q' & _ & -> & ->).
    by rewrite Hpost.
Qed.

(** ** The connection test of the embedding function *)

Lemma startswith_split_head sep s :
  Py.startswith s (OllamaConnection.split_head sep s) = true.
Proof.
  induction s as [|c r IH]; [done|]. simpl.
  destruct (Ascii.eqb c sep); [done|]. simpl. by rewrite Ascii.eqb_refl.
Qed.

(** X14: [_test_connection] succeeds exactly when the server answers 200
    and some installed model's name starts with the part of the configured
    name before its first colon; the tag after the colon plays no role, and
    any installed name that merely extends that part is accepted. *)
Theorem test_connection_matches_base_name model_name status_code model_names :
  (OllamaConnection._test_connection model_name
     (OllamaConnection.TagsResponse status_code model_names)
   = OllamaConnection.Connected
   <-> status_code = 200
       /\ exists m, m ∈ model_names
            /\ Py.startswith m (OllamaConnection.split_head ":" model_name)
               = true)
  /\ forall rest others,
       OllamaConnection._test_connection model_name
         (OllamaConnection.TagsResponse 200
            ((OllamaConnection.split_head ":" model_name +:+ rest) :: others))
       = OllamaConnection.Connected.
Proof.
  assert (forall names,
    OllamaConnection._test_connection model_name
      (OllamaConnection.TagsResponse status_code names)
    = OllamaConnection.Connected
    <-> status_code = 200
        /\ exists m, m ∈ names
             /\ Py.startswith m (OllamaConnection.split_head ":" model_name)
                = true) as Hiff.
  { intros names. unfold OllamaConnection._test_connection.
    destruct (status_code =? 200) eqn:Es; simpl.
    - case_bool_decide as Hin.
      + split; [|done]. intros _. split; [lia|].
        exists model_name. split; [done|apply startswith_split_head].
      + destruct (existsb _ names) eqn:Ex.
        * split; [|done]. intros _. split; [lia|].
          apply existsb_exists in Ex as (m & Hm & Hs).
          exists m. split; [by apply list_elem_of_In|done].
        * split; [done|]. intros (_ & m & Hm & Hs).
          assert (existsb (fun m => Py.startswith m
                     (OllamaConnection.split_head ":" model_name)) names
                  = true) as Habs
            by (apply existsb_exists; exists m; split;
                [by apply list_elem_of_In|done]).
          congruence.
    - split; [done|]. intros [? _]. lia. }
  split; [apply Hiff|].
  intros rest others.
  unfold OllamaConnection._test_connection. simpl.
  case_bool_decide; [done|].
  simpl. by rewrite startswith_app.
Qed.

(** ** Collection statistics *)




(** ** Where the rows after an indexing come from *)

Lemma rows_of_metadata documents metadatas ids k (v : Row) :
  (k, v) ∈ rows_of documents metadatas ids -> snd v ∈ metadatas.
Proof.
  unfold rows_of. destruct v as [d m]. intros H.
  apply elem_of_zip_r in H. by apply elem_of_zip_r in H.
Qed.

Lemma add_batches_origin documents metadatas ids step k row fuel :
  forall i c,
  docs (snd (add_batches fuel step i documents metadatas ids c)) !! k
  = Some row ->
  docs c !! k = Some row \/ snd row ∈ metadatas.
Proof.
  induction fuel as [|fuel IH]; intros i c; simpl; [by left|].
  destruct (i <? length documents)%nat; [|by left].
  unfold_monad.
  destruct (collection_add_cases
              (list_slice documents i (Nat.min (i + step) (length documents)))
              (list_slice metadatas i (Nat.min (i + step) (length documents)))
              (list_slice ids i (Nat.min (i + step) (length documents))) c)
    as [_ Hadd].
  destruct (collection_add _ _ _ c) as [[[]|e] c1]; simpl in *.
  - intros [H1|H1]%IH; [|by right].
    destruct Hadd as [Hadd|[_ Hadd]]; rewrite Hadd in H1; [by left|].
    rewrite lookup_add_rows in H1.
    apply settle_origin in H1 as [H1|H1]; [by left|].
    right. apply rows_of_metadata in H1. by eapply elem_of_list_slice.
  - destruct Hadd as [->|[[=] _]]. by left.
Qed.

Lemma add_documents_origin cfg documents metadatas ids c k row :
  docs (snd (add_documents cfg documents metadatas ids c)) !! k = Some row ->
  docs c !! k = Some row \/ snd row ∈ metadatas.
Proof.
  unfold add_documents.
  destruct (_ =? 0); [by left|]. destruct (_ <? 0); [by left|].
  apply add_batches_origin.
Qed.

Section IndexFileOrigin.

Variable fnmatch : string -> string -> bool.
Variable t : Tree.
Variable p : Path.

Lemma index_file_returns h : fst (index_file fnmatch t p h) = Return tt.
Proof.
  by destruct (index_file_cases fnmatch t p h)
    as [[_ ->]|[(_ & _ & ->)|(records & _ & _ & ->)]].
Qed.

Lemma index_file_processor h :
  processor (snd (index_file fnmatch t p h)) = processor h.
Proof.
  by destruct (index_file_cases fnmatch t p h)
    as [[_ ->]|[(_ & _ & ->)|(records & _ & _ & ->)]].
Qed.

(** A row found after [index_file] was there before or belongs to the
    file. *)
Lemma index_file_origin h k row :
  docs (collection (snd (index_file fnmatch t p h))) !! k = Some row ->
  docs (collection h) !! k = Some row \/ source (snd row) = rel_str p.
Proof.
  destruct (index_file_cases fnmatch t p h)
    as [[_ ->]|[(_ & _ & ->)|(records & _ & Hp & ->)]]; simpl;
    [by left|by left|].
  intros [H|H]%add_documents_origin.
  - left.
    destruct (delete_by_source_all_or_nothing (rel_str p) (collection h))
      as [Hd|Hd]; rewrite Hd in H; [done|].
    rewrite lookup_without_source in H.
    destruct (docs (collection h) !! k) as [v|]; [|done].
    by case_decide.
  - right. apply list_elem_of_fmap in H as (c & -> & Hc).
    by eapply process_file_source.
Qed.

End IndexFileOrigin.

(** ** The watchdog event handlers *)

Section EventHandlers.

Variable fnmatch : string -> string -> bool.
Variable parse_gitignore : string -> string -> option Matcher.
Variable t : Tree.

Lemma set_processor_id h : Events.set_processor (processor h) h = h.
Proof. by destruct h. Qed.

Lemma handle_gitignore_change_shape file_path h :
  exists pr,
    Events._handle_gitignore_change parse_gitignore t file_path h
    = (Return tt, Events.set_processor pr h)
    /\ config pr = config (processor h)
    /\ (name file_path <> ".gitignore" -> pr = processor h)
    /\ (name file_path = ".gitignore" ->
        pr = Gitignore.reload_gitignore_rules parse_gitignore (processor h) t).
Proof.
  unfold Events._handle_gitignore_change.
  destruct (String.eqb_spec (name file_path) ".gitignore") as [Heq|Hne].
  - eexists. split; [reflexivity|]. by repeat split.
  - exists (processor h). rewrite set_processor_id. by repeat split.
Qed.

(** A file event whose path is not a [.gitignore] goes straight to
    [index_file]. *)
Lemma on_modified_plain event h :
  Events.is_directory event = false ->
  name (Events.src_path event) <> ".gitignore" ->
  Events.on_modified fnmatch parse_gitignore t event h
  = index_file fnmatch t (Events.src_path event) h.
Proof.
  intros Hdir Hname. unfold Events.on_modified. rewrite Hdir. simpl.
  unfold_monad.
  destruct (handle_gitignore_change_shape (Events.src_path event) h)
    as (pr & -> & _ & Hpr & _).
  by rewrite (Hpr Hname), set_processor_id.
Qed.

End EventHandlers.

(** X16: a move event on a healthy store renames the file in the index:
    [on_moved] returns normally, afterwards no row carries the old path as
    its source, and every row is either a row that was there before or a row
    of the new path. When the new path passes the gates and has chunks, the
    rows of the new path are its records, each stored under
    [{new path}_{i}], the other rows are rows of other files that were there
    before, and the file is counted as indexed. *)
Theorem on_moved_renames fnmatch parse_gitignore t event h :
  Events.is_directory event = false ->
  outages (collection h) = [] ->
  rel_str (Events.src_path event) <> rel_str (Events.dest_path event) ->
  let after := Events.on_moved fnmatch parse_gitignore t event h in
  fst after = Return tt
  /\ (forall k row,
        docs (collection (snd after)) !! k = Some row ->
        source (snd row) <> rel_str (Events.src_path event)
        /\ (docs (collection h) !! k = Some row
            \/ source (snd row) = rel_str (Events.dest_path event)))
  /\ forall records,
       qualifies fnmatch (processor (snd after)) t (Events.dest_path event)
       = true ->
       process_file (processor (snd after)) t (Events.dest_path event)
       = Some records ->
       (forall k row,
          docs (collection (snd after)) !! k = Some row ->
          (source (snd row) <> rel_str (Events.src_path event)
           /\ source (snd row) <> rel_str (Events.dest_path event)
           /\ docs (collection h) !! k = Some row)
          \/ exists i c,
               records !! i = Some c
               /\ k = rel_str (Events.dest_path event) +:+ "_"
                        +:+ Py.str_of_nat i
               /\ row = (document c, metadata c))
       /\ (0 < batch_size (config (processor h)) ->
           indexed (stats (snd after)) = indexed (stats h) + 1
           /\ forall i c,
                records !! i = Some c ->
                id c = rel_str (Events.dest_path event) +:+ "_"
                         +:+ Py.str_of_nat i
                /\ (on_duplicate (collection h) = Overwrite
                    \/ (forall row,
                          docs (collection h) !! id c = Some row ->
                          source (snd row) = rel_str (Events.src_path event)
                          \/ source (snd row)
                             = rel_str (Events.dest_path event)) ->
                    docs (collection (snd after)) !! id c
                    = Some (document c, metadata c))).
Proof.
  intros Hdir Hc Hne after. subst after.
  unfold Events.on_moved. rewrite Hdir. simpl. unfold_monad.
  destruct (handle_gitignore_change_shape parse_gitignore t
              (Events.src_path event) h) as (pr1 & -> & Hcfg1 & _).
  destruct (handle_gitignore_change_shape parse_gitignore t
              (Events.dest_path event) (Events.set_processor pr1 h))
    as (pr2 & -> & Hcfg2 & _).
  set (h2 := Events.set_processor pr2 (Events.set_processor pr1 h)).
  assert (collection h2 = collection h) as Hcol by done.
  destruct (remove_file_shape (Events.src_path event) h2) as (n & _ & ->).
  rewrite Hcol, (delete_by_source_healthy_count _ _ Hc). simpl.
  match goal with
  | |- context [index_file _ _ _ ?h3] => set (h3' := h3)
  end.
  assert (outages (collection h3') = []) as Hc3 by done.
  assert (config (processor h3') = config (processor h)) as Hcfg
    by (simpl in *; congruence).
  assert (indexed (stats h3') = indexed (stats h)) as Hidx
    by (subst h3'; simpl; by destruct (_ >? 0)).
  assert (forall k row,
            docs (collection h3') !! k = Some row ->
            source (snd row) <> rel_str (Events.src_path event)
            /\ docs (collection h) !! k = Some row) as Hleft.
  { intros k row Hrow. simpl in Hrow.
    rewrite lookup_without_source in Hrow.
    destruct (docs (collection h) !! k) as [v|]; [|done].
    case_decide; [done|]. by injection Hrow as ->. }
  split; [apply index_file_returns|]. split.
  - intros k row [Hrow|Hrow]%index_file_origin.
    + destruct (Hleft _ _ Hrow). split; [done|by left].
    + split; [congruence|by right].
  - intros records. rewrite index_file_processor. intros Hq Hp.
    destruct (index_file_healthy_rows fnmatch t (Events.dest_path event) h3'
                records Hc3 Hq Hp) as [Horigin Hstored].
    split.
    + intros k row Hrow.
      destruct (Horigin _ _ Hrow) as [[Hsrc Hold]|Hnew]; [left|by right].
      destruct (Hleft _ _ Hold). done.
    + rewrite <- Hcfg. intros Hbs.
      destruct (Hstored Hbs) as [Hstats Hrows]. split.
      * rewrite Hstats.
        change (indexed (incr_indexed (stats h3')))
          with (indexed (stats h3') + 1).
        by rewrite Hidx.
      * intros i c Hi. destruct (Hrows i c Hi) as [Hid Hrow].
        split; [exact Hid|]. intros Hfree. apply Hrow.
        destruct Hfree as [?|Hfree]; [by left|right].
        intros row Hold. destruct (Hleft _ _ Hold) as [Hsrc Hh].
        by destruct (Hfree _ Hh).
Qed.

(** [a.py], of which the collection holds the row [a.py_1], is moved to
    [b.py]: afterwards [b.py_0] holds the chunk of [b.py], [a.py_1] is gone,
    and one file is counted as indexed. *)
Lemma on_moved_renames_witness :
  let event := {| Events.is_directory := false;
                  Events.src_path := ["a.py"];
                  Events.dest_path := ["b.py"] |} in
  let after := Events.on_moved Sample.fnmatch (fun _ _ => None)
                 [ FileNode "b.py" (ReadOk (Sample.repeat_char "x" 60)) ]
                 event Sample.stale_handler in
  fst after = Return tt
  /\ docs (collection (snd after)) !! "b.py_0"
     = Some (Sample.repeat_char "x" 60,
             {| source := "b.py"; filename := "b.py"; extension := ".py";
                language := "python"; chunk_index := 0; total_chunks := 1;
                directory := "." |})
  /\ docs (collection (snd after)) !! "a.py_1" = None
  /\ indexed (stats (snd after)) = 1.
Proof.
  intros event after.
  destruct (on_moved_renames Sample.fnmatch (fun _ _ => None)
              [ FileNode "b.py" (ReadOk (Sample.repeat_char "x" 60)) ]
              event Sample.stale_handler eq_refl eq_refl
              ltac:(by vm_compute))
    as (Hret & _ & Hrows).
  fold after in Hret, Hrows.
  destruct (Hrows
    [ {| document := Sample.repeat_char "x" 60;
         metadata := {| source := "b.py"; filename := "b.py";
                        extension := ".py"; language := "python";
                        chunk_index := 0; total_chunks := 1;
                        directory := "." |};
         id := "b.py_0" |} ] eq_refl eq_refl) as [Horigin Hstored].
  destruct (Hstored eq_refl) as [Hstats Hstored'].
  split; [exact Hret|]. split; [|split].
  - apply (Hstored' 0%nat _ eq_refl). right. intros row Hrow.
    vm_compute in Hrow. discriminate.
  - destruct (docs (collection (snd after)) !! "a.py_1") as [row|] eqn:E;
      [|done].
    destruct (Horigin _ _ E) as [(Hsrc & _ & Hold)|(i & c & Hi & Hk & _)].
    + vm_compute in Hold. injection Hold as <-. by destruct Hsrc.
    + destruct i as [|i]; [|by destruct i].
      vm_compute in Hk. discriminate.
  - exact Hstats.
Defined.

(** X17: none of the four event handlers lets an exception escape to the
    observer thread, whatever the file system and the store do; each leaves
    the configuration alone, and an event on a directory changes nothing at
    all: a moved or deleted directory leaves the rows of the files below it
    in the collection. *)
Theorem event_handlers_never_raise fnmatch parse_gitignore t event h
    (handler : Tree -> Events.FileSystemEvent -> M CodeIndexerHandler unit) :
  handler ∈ [ Events.on_modified fnmatch parse_gitignore;
              Events.on_created fnmatch parse_gitignore;
              Events.on_deleted parse_gitignore;
              Events.on_moved fnmatch parse_gitignore ] ->
  fst (handler t event h) = Return tt
  /\ config (processor (snd (handler t event h))) = config (processor h)
  /\ (Events.is_directory event = true -> snd (handler t event h) = h).
Proof.
  intros Hin.
  assert (forall p h0,
            fst (remove_file p h0) = Return tt
            /\ processor (snd (remove_file p h0)) = processor h0) as Hrm.
  { intros p h0. by destruct (remove_file_shape p h0) as (n & _ & ->). }
  repeat (apply elem_of_cons in Hin as [->|Hin]);
    [| | | |by apply elem_of_nil in Hin];
    unfold Events.on_modified, Events.on_created, Events.on_deleted,
      Events.on_moved;
    (destruct (Events.is_directory event); simpl; [done|]);
    unfold_monad;
    destruct (handle_gitignore_change_shape parse_gitignore t
                (Events.src_path event) h) as (pr1 & -> & Hcfg1 & _).
  - rewrite index_file_returns, index_file_processor. by repeat split.
  - rewrite index_file_returns, index_file_processor. by repeat split.
  - destruct (Hrm (Events.src_path event) (Events.set_processor pr1 h))
      as [H1 H2].
    rewrite H1, H2. by repeat split.
  - destruct (handle_gitignore_change_shape parse_gitignore t
                (Events.dest_path event) (Events.set_processor pr1 h))
      as (pr2 & -> & Hcfg2 & _).
    destruct (Hrm (Events.src_path event)
                (Events.set_processor pr2 (Events.set_processor pr1 h)))
      as [H1 H2].
    destruct (remove_file _ _) as [r h3]. simpl in *. subst r.
    rewrite index_file_returns, index_file_processor, H2.
    split; [done|]. split; [|done]. simpl in *. congruence.
Qed.

Lemma event_handlers_never_raise_witness :
  fst (Events.on_deleted (fun _ _ => None) []
         {| Events.is_directory := false;
            Events.src_path := ["a.py"];
            Events.dest_path := [] |}
         Sample.outage_handler)
  = Return tt.
Proof.
  apply (event_handlers_never_raise Sample.fnmatch (fun _ _ => None) []
           {| Events.is_directory := false;
              Events.src_path := ["a.py"];
              Events.dest_path := [] |}
           Sample.outage_handler (Events.on_deleted (fun _ _ => None))).
  do 2 apply list_elem_of_further. apply list_elem_of_here.
Defined.




(** ** The pruned walk of [initial_index] *)

(** Induction on a directory tree, with the property at hand for every
    child of a directory. *)
Lemma Node_ind_children (P : Node -> Prop) :
  (forall nm data, P (FileNode nm data)) ->
  (forall nm children, Forall P children -> P (DirNode nm children)) ->
  forall n, P n.
Proof.
  intros Hfile Hdir. fix IH 1. intros [nm data|nm children]; [apply Hfile|].
  apply Hdir. induction children as [|c cs IHcs]; constructor;
    [apply IH|apply IHcs].
Qed.

Section PrunedWalk.

Variable excl : gset string.

(** Below a directory that would have been pruned nothing is kept. *)
Lemma walk_node_below_excluded n : forall root,
  ¬ Forall (fun d => d ∉ excl) root ->
  filter (clear_of_excluded excl) (walk_node ∅ root n) = [].
Proof.
  induction n as [nm data|nm children IH] using Node_ind_children;
    intros root Hroot; simpl; [done|].
  rewrite bool_decide_eq_false_2 by set_solver.
  assert (¬ Forall (fun d => d ∉ excl) (root ++ [nm])%list) as Hhere
    by (by intros [? _]%Forall_app).
  rewrite filter_cons_False by done.
  induction IH as [|c cs Hc _ IHcs]; simpl; [done|].
  by rewrite filter_app, (Hc _ Hhere), IHcs.
Qed.

(** The pruned walk visits the directories of the full walk that have no
    excluded component, in the same order. *)
Lemma walk_node_pruned n : forall root,
  Forall (fun d => d ∉ excl) root ->
  walk_node excl root n = filter (clear_of_excluded excl) (walk_node ∅ root n).
Proof.
  induction n as [nm data|nm children IH] using Node_ind_children;
    intros root Hroot; simpl; [done|].
  rewrite (bool_decide_eq_false_2 (nm ∈ (∅ : gset string))) by set_solver.
  case_bool_decide as Hnm.
  - assert (¬ Forall (fun d => d ∉ excl) (root ++ [nm])%list) as Hhere.
    { intros [_ Hn]%Forall_app. rewrite Forall_singleton in Hn.
      by apply Hn. }
    rewrite filter_cons_False by done.
    clear IH. induction children as [|c cs IHcs]; simpl; [done|].
    by rewrite filter_app, (walk_node_below_excluded c _ Hhere), <- IHcs.
  - assert (Forall (fun d => d ∉ excl) (root ++ [nm])%list) as Hhere
      by (apply Forall_app; split; [done|by rewrite Forall_singleton]).
    rewrite filter_cons_True by done. f_equal.
    induction IH as [|c cs Hc _ IHcs]; simpl; [done|].
    by rewrite filter_app, <- (Hc _ Hhere), IHcs.
Qed.

Lemma walk_pruned t :
  walk excl t = filter (clear_of_excluded excl) (walk ∅ t).
Proof.
  unfold walk. rewrite filter_cons_True by constructor.
  f_equal. induction t as [|n t IH]; simpl; [done|].
  rewrite filter_app, <- IH. f_equal. apply walk_node_pruned. constructor.
Qed.

End PrunedWalk.

Section PrunedIndex.

Variable fnmatch : string -> string -> bool.
Variable t : Tree.

Lemma excluded_component_rejected self p d :
  d ∈ exclude_dirs (config self) -> d ∈ p ->
  qualifies fnmatch self t p = false.
Proof.
  intros Hd Hp. unfold qualifies, should_ignore, ignore_rule.
  rewrite (proj2 (exclude_dir_check self p)); [apply andb_false_r|].
  exists d. split; [done|]. by apply dir_excludes_component.
Qed.

(** The files of a directory with an excluded component are all passed
    over. *)
Lemma initial_index_files_excluded root files : forall n h,
  ¬ Forall (fun d => d ∉ exclude_dirs (config (processor h))) root ->
  initial_index_files fnmatch t root files n h = (Return n, h).
Proof.
  induction files as [|file files IH]; intros n h Hroot; simpl; [done|].
  unfold_monad.
  apply not_Forall_Exists in Hroot; [|apply _].
  pose proof Hroot as Hroot'.
  apply Exists_exists in Hroot' as (d & Hin & Hd). simpl in Hd.
  apply dec_stable in Hd.
  rewrite (initial_index_file_rejected fnmatch t).
  - apply IH. intros HF. rewrite Forall_forall in HF. by apply (HF d).
  - apply (excluded_component_rejected _ _ d); [done|].
    apply elem_of_app. by left.
Qed.

Lemma initial_index_dirs_pruned pr dirs : forall n h,
  processor h = pr ->
  initial_index_dirs fnmatch t
    (filter (clear_of_excluded (exclude_dirs (config pr))) dirs) n h
  = initial_index_dirs fnmatch t dirs n h.
Proof.
  induction dirs as [|[root files] dirs IH]; intros n h Hpr; [done|].
  destruct (decide (Forall (fun d => d ∉ exclude_dirs (config pr)) root))
    as [Hok|Hbad].
  - rewrite filter_cons_True by done. simpl. unfold_monad.
    pose proof (initial_index_files_keeps fnmatch t root files n h)
      as (Hpr' & _).
    destruct (initial_index_files fnmatch t root files n h)
      as [[n'|e] h1]; [|done].
    apply IH. simpl in Hpr'. congruence.
  - rewrite filter_cons_False by done. simpl. unfold_monad.
    rewrite initial_index_files_excluded by (by rewrite Hpr).
    by apply IH.
Qed.

End PrunedIndex.

(** X19: the pruning of the walk in [initial_index] only saves work. The
    walk visits no directory with a component in [exclude_dirs], and running
    the loop over the full, unpruned walk gives the same result and leaves
    the same state, because [should_ignore] rejects every file below an
    excluded directory. *)
Theorem initial_index_pruning_saves_work_only fnmatch t h :
  let excl := exclude_dirs (config (processor h)) in
  Forall (clear_of_excluded excl) (walk excl t)
  /\ initial_index fnmatch t h
     = initial_index_dirs fnmatch t (walk ∅ t) 0 h.
Proof.
  intros excl. split.
  - rewrite walk_pruned. apply Forall_forall.
    by intros entry [H _]%list_elem_of_filter.
  - unfold initial_index. unfold_monad. fold excl.
    rewrite walk_pruned. by apply initial_index_dirs_pruned.
Qed.

(** ** The records of a file *)

Lemma chunk_content_elem_bounded cfg content c :
  0 <= chunk_size cfg ->
  c ∈ chunk_content cfg content -> Py.len c <= chunk_size cfg.
Proof.
  intros Hcs. revert c. apply Forall_forall. unfold chunk_content.
  destruct (chunks (fst (run_loop cfg content))) as [|c cs] eqn:E.
  - constructor; [|constructor].
    etrans; [apply len_slice_le; lia|]. lia.
  - rewrite <- E. unfold run_loop. rewrite chunk_loop_chunks.
    change (chunks loop_init) with (@nil string). rewrite app_nil_l.
    apply Forall_filter_keeps, window_texts_bounded; simpl; lia.
Qed.

(** X20: [process_file] gives no records exactly when the file cannot be
    read as UTF-8 text or holds white space only. Otherwise it gives at
    least one record, and record [i] of [n] carries [chunk_index = i],
    [total_chunks = n], the id [{source}_{i}], the file's relative path,
    name and parent directory, and chunk [i] of [chunk_content] as its
    document, of at most [chunk_size] characters. *)
Theorem process_file_records self t p :
  (process_file self t p = None
   <-> forall content, read_text t p = ReadOk content ->
                       all_space content = true)
  /\ forall records,
       process_file self t p = Some records ->
       records <> []
       /\ exists content,
            read_text t p = ReadOk content
            /\ map document records = chunk_content (config self) content
            /\ forall i c,
                 records !! i = Some c ->
                 chunk_index (metadata c) = i
                 /\ total_chunks (metadata c) = length records
                 /\ id c = make_id (rel_str p) i
                 /\ source (metadata c) = rel_str p
                 /\ filename (metadata c) = name p
                 /\ directory (metadata c) = rel_str (parent p)
                 /\ (0 <= chunk_size (config self) ->
                     Py.len (document c) <= chunk_size (config self)).
Proof.
  split.
  - unfold process_file. destruct (read_text t p) as [content| |].
    + destruct (Py.strip content) eqn:E.
      * split; [|done]. intros _ ? [= <-]. by apply strip_empty_iff.
      * split; [done|]. intros H.
        pose proof (proj2 (strip_empty_iff content) (H _ eq_refl)).
        congruence.
    + by split.
    + by split.
  - intros records Hp. split; [by eapply process_file_nonempty|].
    destruct (process_file_Some _ _ _ _ Hp) as (content & Hread & _ & ->).
    exists content. split; [done|]. split.
    + apply list_eq. intros i.
      rewrite list_lookup_fmap, list_lookup_imap.
      by destruct (_ !! i).
    + intros i c. rewrite list_lookup_imap, length_imap.
      destruct (chunk_content (config self) content !! i) as [chunk|] eqn:Hi;
        [|done].
      intros [= <-]. simpl. repeat split; try done.
      intros Hcs. apply (chunk_content_elem_bounded _ content); [done|].
      by eapply list_elem_of_lookup_2.
Qed.

(** ** What the query endpoint shows of a chunk *)

Lemma len_append a b : Py.len (a +:+ b) = Py.len a + Py.len b.
Proof.
  unfold Py.len. induction a as [|x a IH]; [by rewrite append_nil_l|].
  rewrite append_cons. simpl String.length. lia.
Qed.

(** X21: the [/query] endpoint answers with as many results as the shortest
    of the three lists it zips, numbered from 1 in order. A document of up
    to 500 characters is shown whole, a longer one as its first 500
    characters followed by three dots; so with [chunk_size <= 500], the
    default, every chunk produced by [chunk_content] is shown whole. *)
Theorem query_shows_whole_chunks (num : Type) (one_minus : num -> num)
  (documents : list string) (metadatas : list Metadata)
  (distances : list num) :
  let results :=
    Query.formatted_results num one_minus documents metadatas distances in
  length results
  = Nat.min (length documents)
      (Nat.min (length metadatas) (length distances))
  /\ (forall i r,
        results !! i = Some r ->
        Query.result_id r = Z.of_nat i + 1
        /\ Py.len (Query.content r) <= 503
        /\ exists doc,
             documents !! i = Some doc
             /\ Query.content r
                = if Py.len doc >? 500 then Py.slice_to doc 500 +:+ "..."
                  else doc)
  /\ forall cfg content chunk,
       0 <= chunk_size cfg <= 500 ->
       chunk ∈ chunk_content cfg content ->
       Query.format_content chunk = chunk.
Proof.
  intros results. subst results. unfold Query.formatted_results.
  split; [by rewrite length_imap, !length_zip|]. split.
  - intros i r. rewrite list_lookup_imap.
    destruct (zip documents (zip metadatas distances) !! i)
      as [[doc [m d]]|] eqn:Hi; [|done].
    intros [= <-]. simpl. split; [done|].
    apply lookup_zip_with_Some in Hi as (doc' & md & [= <- <-] & Hdoc & _).
    split.
    + unfold Query.format_content.
      destruct (Py.len doc >? 500) eqn:E; [|lia].
      rewrite len_append.
      pose proof (len_slice_le doc 0 500). unfold Py.slice_to.
      change (Py.len "...") with 3. lia.
    + by exists doc.
  - intros cfg content chunk Hcs Hin. unfold Query.format_content.
    pose proof (chunk_content_elem_bounded cfg content chunk
                  ltac:(lia) Hin).
    by replace (Py.len chunk >? 500) with false by lia.
Qed.

(** ** A batch size that is not positive *)

(** X22: [batch_size] is not validated. With [batch_size = 0] the [range]
    of [add_documents] raises before any call to the store, and with a
    negative one the loop body never runs. As [index_file] has deleted the
    file's rows by then, on a healthy store a file with chunks ends up with
    no row at all, counted as an error for 0 and as indexed for a negative
    size. *)
Theorem index_file_nonpositive_batch_size fnmatch t p h records :
  batch_size (config (processor h)) <= 0 ->
  outages (collection h) = [] ->
  qualifies fnmatch (processor h) t p = true ->
  process_file (processor h) t p = Some records ->
  index_file fnmatch t p h
  = (Return tt,
     {| processor := processor h;
        stats := if batch_size (config (processor h)) =? 0
                 then incr_errors (stats h) else incr_indexed (stats h);
        collection :=
          set_docs (without_source (rel_str p) (docs (collection h)))
            (collection h) |})
  /\ forall k row,
       docs (collection (snd (index_file fnmatch t p h))) !! k = Some row ->
       source (snd row) <> rel_str p.
Proof.
  intros Hbs Hc Hq Hp.
  assert (index_file fnmatch t p h
          = (Return tt,
             {| processor := processor h;
                stats := if batch_size (config (processor h)) =? 0
                         then incr_errors (stats h)
                         else incr_indexed (stats h);
                collection :=
                  set_docs (without_source (rel_str p) (docs (collection h)))
                    (collection h) |})) as Heq.
  { destruct (index_file_cases fnmatch t p h)
      as [[Hq' _]|[(_ & Hp' & _)|(records' & _ & _ & ->)]];
      [congruence|congruence|].
    rewrite (delete_by_source_healthy_count _ _ Hc). simpl.
    unfold add_documents. rewrite Z.min_l by lia.
    destruct (batch_size (config (processor h)) =? 0) eqn:E; [done|].
    by replace (batch_size (config (processor h)) <? 0) with true by lia. }
  split; [done|]. rewrite Heq. simpl. intros k row.
  rewrite lookup_without_source.
  destruct (docs (collection h) !! k) as [v|]; [|done].
  case_decide; [done|]. by intros [= <-].
Qed.

Lemma index_file_nonpositive_batch_size_witness :
  index_file Sample.fnmatch Sample.one_file_tree ["a.py"]
    Sample2.zero_batch_handler
  = (Return tt,
     {| processor := processor Sample2.zero_batch_handler;
        stats := incr_errors Sample.no_stats;
        collection :=
          {| docs := ∅; on_duplicate := KeepExisting; outages := [] |} |}).
Proof.
  refine (eq_trans
    (proj1 (index_file_nonpositive_batch_size Sample.fnmatch
              Sample.one_file_tree ["a.py"] Sample2.zero_batch_handler
              (default [] (process_file
                             (processor Sample2.zero_batch_handler)
                             Sample.one_file_tree ["a.py"]))
              _ _ _ _)) _).
  - by vm_compute.
  - reflexivity.
  - by vm_compute.
  - by vm_compute.
  - vm_compute. reflexivity.
Defined.
